(** * significant_bases_by_randomisation.py

    A shallow embedding of [scripts/significant_bases_by_randomisation.py]
    (iCLIPlib) and the properties of its command-line driver [main]:
    the parsing of the options, the choice of the worker pool, of the
    interval iterator and of the signal getter, and the treatment of the
    table of Result Records (FDR threshold, removal of duplicates,
    sorting, layout of the rows written to standard output).

    Conventions of the embedding.
    - A pandas [DataFrame] is a list of rows, in row order; a row is a
      record with one field per column.
    - A float64 is a [spec_float] of the Standard Library (IEEE 754
      values without NaN payload), compared with [SFcompare].
    - An int64 is a [Z]; arithmetic on an int64 column wraps, and the
      wrap is written out ([wrap64]).
    - A command line is the list of its options, in order; the parser
      handles them one by one and stops at the first that asks for the
      help or the version, or that it refuses.
    - [main] runs in a small monad that records the calls made to the
      collaborators and may stop with [sys.exit] or an exception.
    - [multiprocessing.Pool] raises [ValueError] for a process count
      below 1, and the import of [multiprocessing] may fail; the
      getters, the iterators and the writing of the result return
      normally. *)

From Stdlib Require Import ZArith List String Ascii Bool Lia.
From Stdlib Require Import Sorting.Permutation Sorting.Sorted.
From Stdlib Require Import SpecFloat.
Import ListNotations.
Open Scope Z_scope.
Open Scope string_scope.
Open Scope list_scope.

(** * Part I: the embedding *)

(** ** Orders decided by a boolean test *)

Section BoolOrders.
Context {A : Type}.
Implicit Type le : A -> A -> bool.

Definition total le : Prop :=
  forall a b, le a b = false -> le b a = true.

Definition transitive le : Prop :=
  forall a b c, le a b = true -> le b c = true -> le a c = true.

Record total_preorder le : Prop := {
  tp_total : total le;
  tp_trans : transitive le
}.
End BoolOrders.

(** ** float64 values *)

Module Float64.

Definition float64 := spec_float.

Definition is_nan (x : float64) : bool :=
  match x with S754_nan => true | _ => false end.

(** The place of [x] relative to [y] in a sorted column: missing values
    (NaN) come last whatever the direction, the other values are in
    increasing ([ascending = true]) or decreasing order. This is
    [na_position="last"], the default of [sort_values]. *)
Definition na_last_le (ascending : bool) (x y : float64) : bool :=
  match x, y with
  | _, S754_nan => true
  | S754_nan, _ => false
  | _, _ => if ascending then SFleb x y else SFleb y x
  end.

(** 0.05, the default of [--threshold], as a binary64. *)
Definition default_threshold : float64 :=
  S754_finite false 7205759403792794 (-57).

End Float64.
Import Float64.

(** ** int64 values *)

(** The value an int64 holds after an operation whose exact result is
    [z]: numpy array arithmetic wraps silently. *)
Definition wrap64 (z : Z) : Z := (z + 2 ^ 63) mod 2 ^ 64 - 2 ^ 63.

Definition int64_max : Z := 2 ^ 63 - 1.

(** ** Lists: stable sort, first occurrences *)

Section ListOps.
Context {A : Type}.

(** [insert le x l] puts [x] in front of the first element that is not
    before it: an element equal to [x] for [le] stays behind [x]. *)
Fixpoint insert (le : A -> A -> bool) (x : A) (l : list A) : list A :=
  match l with
  | [] => [x]
  | y :: l' => if le x y then x :: l else y :: insert le x l'
  end.

(** A stable sort: rows that compare equal keep their relative order.
    The result of a stable sort is fixed by [le] and the input, so this
    one stands for the stable algorithm pandas runs on several keys. *)
Fixpoint stable_sort (le : A -> A -> bool) (l : list A) : list A :=
  match l with
  | [] => []
  | x :: l' => insert le x (stable_sort le l')
  end.

(** Rows are compared on the first key; the next keys only decide
    between rows that the keys before them hold equal. *)
Fixpoint lexsort_le (keys : list (A -> A -> bool)) (a b : A) : bool :=
  match keys with
  | [] => true
  | le :: keys' =>
      if le b a then (if le a b then lexsort_le keys' a b else false)
      else true
  end.

(** Keep the first row of every class of [same]; [seen] holds the rows
    kept so far, as the table of the keys already met. *)
Fixpoint dedup (same : A -> A -> bool) (seen l : list A) : list A :=
  match l with
  | [] => []
  | x :: l' =>
      if existsb (same x) seen then dedup same seen l'
      else x :: dedup same (x :: seen) l'
  end.
End ListOps.

(** ** The table of Result Records *)

(** One row of the table returned by the FDR computation, after
    [reset_index] and the renaming of the columns (lines 165-166):
    [contig] and [start] come from the index, [FDR], [depth] and
    [strand] are the columns. [start] is an int64. *)
Record Result := mkResult {
  contig : string;
  start : Z;
  FDR : float64;
  depth : float64;
  strand : string
}.

Definition DataFrame := list Result.

Inductive column := Ccontig | Cstart | CFDR | Cdepth | Cstrand.

Inductive cell :=
| Str (s : string)
| Int (i : Z)
| Float (f : float64).

Definition get (c : column) (r : Result) : cell :=
  match c with
  | Ccontig => Str (contig r)
  | Cstart => Int (start r)
  | CFDR => Float (FDR r)
  | Cdepth => Float (depth r)
  | Cstrand => Str (strand r)
  end.

(** Order of two values of one column. Strings are compared character
    code by character code, as Python compares them. A column holds
    values of one type, so the last case is never met. *)
Definition cell_le (ascending : bool) (x y : cell) : bool :=
  match x, y with
  | Str a, Str b => if ascending then String.leb a b else String.leb b a
  | Int a, Int b => if ascending then Z.leb a b else Z.leb b a
  | Float a, Float b => na_last_le ascending a b
  | _, _ => true
  end.

(** Equality of two values for [drop_duplicates]: missing values are
    equal to each other. *)
Definition cell_eqb (x y : cell) : bool :=
  match x, y with
  | Str a, Str b => String.eqb a b
  | Int a, Int b => Z.eqb a b
  | Float a, Float b => SFeqb a b || (is_nan a && is_nan b)
  | _, _ => false
  end.

Definition column_le (by_asc : column * bool) (a b : Result) : bool :=
  cell_le (snd by_asc) (get (fst by_asc) a) (get (fst by_asc) b).

(** [results[mask]] *)
Definition boolean_mask (mask : Result -> bool) (df : DataFrame) : DataFrame :=
  filter mask df.

(** [df.sort_values(by, ascending)] with more than one key. *)
Definition sort_values (by_ : list column) (ascending : list bool)
    (df : DataFrame) : DataFrame :=
  stable_sort (lexsort_le (map column_le (combine by_ ascending))) df.

Definition same_on (subset : list column) (a b : Result) : bool :=
  forallb (fun c => cell_eqb (get c a) (get c b)) subset.

(** [df.drop_duplicates(subset)], which keeps the first row of each key. *)
Definition drop_duplicates (subset : list column) (df : DataFrame) : DataFrame :=
  dedup (same_on subset) [] df.

(** Lines 164-172 of [main]: the rows kept for output, in output order. *)
Definition significant (threshold : float64) (results : DataFrame) : DataFrame :=
  let results := boolean_mask (fun r => SFleb (FDR r) threshold) results in
  let results := sort_values [CFDR; Cdepth] [true; false] results in
  let results := drop_duplicates [Ccontig; Cstart; Cstrand] results in
  let results := sort_values [Ccontig; Cstart; Cstrand] [true; true; true] results in
  results.

(** The key of a row for [drop_duplicates] and for the final sort. *)
Definition key : Type := string * Z * string.

Definition key_of (r : Result) : key := (contig r, start r, strand r).

(** Strictly ascending lexicographic order on keys. *)
Definition key_lt (a b : key) : Prop :=
  let '(c1, s1, d1) := a in
  let '(c2, s2, d2) := b in
  String.ltb c1 c2 = true \/
  (c1 = c2 /\ (s1 < s2 \/ (s1 = s2 /\ String.ltb d1 d2 = true))).

(** ** The rows written *)

(** A row of the table after line 176: the columns in output order. *)
Record Row := mkRow {
  row_contig : string;
  row_start : Z;
  row_end : Z;
  row_FDR : float64;
  row_depth : float64;
  row_strand : string
}.

Definition tab : string := String "009"%char EmptyString.

Section Output.
(** [numpy.log10] on a float64. *)
Variable log10 : float64 -> float64.
(** The text the csv writer produces for one field. *)
Variable csv_field : cell -> string.

(** [.astype("int")] on the [start] column, which holds int64 values. *)
Definition astype_int (z : Z) : Z := z.

(** Lines 174-177 of [main], row by row. *)
Definition bed_row (r : Result) : Row :=
  let start := astype_int (start r) in
  let end_ := wrap64 (start + 1) in
  {| row_contig := contig r;
     row_start := start;
     row_end := end_;
     row_FDR := SFopp (log10 (FDR r));
     row_depth := depth r;
     row_strand := strand r |}.

Definition cells (row : Row) : list cell :=
  [Str (row_contig row); Int (row_start row); Int (row_end row);
   Float (row_FDR row); Float (row_depth row); Str (row_strand row)].

(** [to_csv(header=False, index=False, sep="\t")]: one line per row,
    the fields of the row joined by tabs, nothing else. *)
Definition to_csv (rows : list Row) : list string :=
  map (fun row => String.concat tab (map csv_field (cells row))) rows.
End Output.

(** ** The collaborators of [main] *)

(** [GTF.flat_gene_iterator(GTF.iterator(options.stdin))] and
    [GTF.transcript_iterator(GTF.iterator(options.stdin))]. *)
Inductive iterator := flat_gene_iterator | transcript_iterator.

(** A call of [iCLIP.make_getter] with its arguments; an argument the
    call does not give has the value [None] (or [False] for [centre]). *)
Inductive getter :=
| make_getter (bamfile plus_wig minus_wig bedfile : option string) (centre : bool).

(** [multiprocessing.Pool(processes)] *)
Inductive Pool := multiprocessing_Pool (processes : Z).

Inductive exn :=
| ValueError (msg : string)
| ConfigurationError (msg : string).

(** What stops the program: [sys.exit(status)] or an exception nobody
    catches. *)
Inductive abort :=
| SystemExit (status : Z)
| Raise (e : exn).

(** What the program does that can be seen from outside, in order. *)
Inductive event :=
| E_debug (msg : string)
| E_warn (msg : string)
| E_error (msg : string)
| parser_error (option_name value : string)
| print_help
| print_version
| call_fdr (it : iterator) (bam : getter) (rands spread : Z) (pool : option Pool)
| stdout (lines : list string)
| E_Stop.

(** ** The monad of [main]: a log of events, and a result or an abort *)

Definition M (A : Type) : Type := list event * (abort + A).

Definition ret {A : Type} (a : A) : M A := ([], inr a).

Definition bind {A B : Type} (m : M A) (f : A -> M B) : M B :=
  match m with
  | (log, inl stop) => (log, inl stop)
  | (log, inr a) => let '(log', r) := f a in (log ++ log', r)
  end.

Definition emit (e : event) : M unit := ([e], inr tt).

Definition sys_exit {A : Type} (status : Z) : M A := ([], inl (SystemExit status)).

Definition raise {A : Type} (e : exn) : M A := ([], inl (Raise e)).

(** A call that returns a value or raises. *)
Definition call {A : Type} (r : exn + A) : M A :=
  match r with
  | inl e => raise e
  | inr a => ret a
  end.

Notation "x <- m ;; f" := (bind m (fun x => f))
  (at level 61, m at next level, right associativity).
Notation "m ;;; f" := (bind m (fun _ => f))
  (at level 61, right associativity).

Definition log_of {A : Type} (m : M A) : list event := fst m.

Definition outcome {A : Type} (m : M A) : abort + A := snd m.

(** The exit status of [sys.exit(main(sys.argv))]: [main] returns
    [None], an uncaught exception ends the interpreter with status 1. *)
Definition exit_status (m : M unit) : Z :=
  match outcome m with
  | inr _ => 0
  | inl (SystemExit status) => status
  | inl (Raise _) => 1
  end.

(** ** Options *)

(** One option of the command line, as the parser meets it. The value
    of an option of type int or float is the converted value. An option
    the parser cannot handle (it is unknown, its value is missing or
    does not convert) is [opt_refused]; [opt_common] is one of the
    options that [E.Start] adds (verbosity, log files, timing, ...). *)
Inductive Arg :=
| opt_bam (value : string)
| opt_plus_wig (value : string)
| opt_minus_wig (value : string)
| opt_bed (value : string)
| opt_spread (value : Z)
| opt_randomisations (value : Z)
| opt_threshold (value : float64)
| opt_feature (value : string)
| opt_processes (value : Z)
| opt_centre
| opt_common
| opt_help
| opt_version
| opt_refused (option_name value : string).

(** The options of the command line, in order. *)
Definition CommandLine := list Arg.

(** The [options] object, named by the [dest] of each option. *)
Record Options := mkOptions {
  bam : option string;
  plus_wig : option string;
  minus_wig : option string;
  bedfile : option string;
  spread : Z;
  rands : Z;
  threshold : float64;
  feature : string;
  proc : option Z;
  centre : bool
}.

Definition default {A : Type} (d : A) (o : option A) : A :=
  match o with Some a => a | None => d end.

(** The defaults of lines 95-126. *)
Definition defaults : Options :=
  {| bam := None; plus_wig := None; minus_wig := None; bedfile := None;
     spread := 15; rands := 100; threshold := default_threshold;
     feature := "gene"; proc := None; centre := false |}.

(** An option of type ["choice"]: a value outside [choices] is refused
    by the parser, which reports it and exits with status 2. *)
Definition check_choice (option_name : string) (choices : list string)
    (value : string) : M string :=
  if existsb (String.eqb value) choices then ret value
  else emit (parser_error option_name value) ;;; sys_exit 2.

(** What the parser does with one option: it stores the value under
    its [dest], prints the help or the version and exits with status 0,
    or reports an error and exits with status 2. *)
Definition process_option (a : Arg) (values : Options) : M Options :=
  match a with
  | opt_bam v =>
      ret (mkOptions (Some v) (plus_wig values) (minus_wig values)
             (bedfile values) (spread values) (rands values) (threshold values)
             (feature values) (proc values) (centre values))
  | opt_plus_wig v =>
      ret (mkOptions (bam values) (Some v) (minus_wig values)
             (bedfile values) (spread values) (rands values) (threshold values)
             (feature values) (proc values) (centre values))
  | opt_minus_wig v =>
      ret (mkOptions (bam values) (plus_wig values) (Some v)
             (bedfile values) (spread values) (rands values) (threshold values)
             (feature values) (proc values) (centre values))
  | opt_bed v =>
      ret (mkOptions (bam values) (plus_wig values) (minus_wig values)
             (Some v) (spread values) (rands values) (threshold values)
             (feature values) (proc values) (centre values))
  | opt_spread v =>
      ret (mkOptions (bam values) (plus_wig values) (minus_wig values)
             (bedfile values) v (rands values) (threshold values)
             (feature values) (proc values) (centre values))
  | opt_randomisations v =>
      ret (mkOptions (bam values) (plus_wig values) (minus_wig values)
             (bedfile values) (spread values) v (threshold values)
             (feature values) (proc values) (centre values))
  | opt_threshold v =>
      ret (mkOptions (bam values) (plus_wig values) (minus_wig values)
             (bedfile values) (spread values) (rands values) v
             (feature values) (proc values) (centre values))
  | opt_feature v =>
      value <- check_choice "--feature" ["transcript"; "gene"] v ;;
      ret (mkOptions (bam values) (plus_wig values) (minus_wig values)
             (bedfile values) (spread values) (rands values) (threshold values)
             value (proc values) (centre values))
  | opt_processes v =>
      ret (mkOptions (bam values) (plus_wig values) (minus_wig values)
             (bedfile values) (spread values) (rands values) (threshold values)
             (feature values) (Some v) (centre values))
  | opt_centre =>
      ret (mkOptions (bam values) (plus_wig values) (minus_wig values)
             (bedfile values) (spread values) (rands values) (threshold values)
             (feature values) (proc values) true)
  | opt_common => ret values
  | opt_help => emit print_help ;;; sys_exit 0
  | opt_version => emit print_version ;;; sys_exit 0
  | opt_refused option_name value =>
      emit (parser_error option_name value) ;;; sys_exit 2
  end.

(** [parser.parse_args]: the options are handled in the order of the
    command line. *)
Fixpoint parse_args (argv : CommandLine) (values : Options) : M Options :=
  match argv with
  | [] => ret values
  | a :: rest =>
      values' <- process_option a values ;;
      parse_args rest values'
  end.

(** [E.Start(parser, argv=argv)] with the options of lines 95-126. *)
Definition E_Start (argv : CommandLine) : M Options :=
  parse_args argv defaults.

(** The truth value of an option holding a string or [None]. *)
Definition truth (o : option string) : bool :=
  match o with
  | Some s => negb (String.eqb s "")
  | None => false
  end.

(** ** [main] *)

Section Script.
(** Whether [import multiprocessing] goes through; otherwise
    [ImportError] is raised inside the [try], before the pool is made. *)
Variable multiprocessing_available : bool.
(** [iCLIP.get_crosslink_fdr_by_randomisation] *)
Variable get_crosslink_fdr_by_randomisation :
  iterator -> getter -> Z -> Z -> option Pool -> exn + DataFrame.
Variable log10 : float64 -> float64.
Variable csv_field : cell -> string.

(** Lines 131-141. [multiprocessing.Pool] raises [ValueError] for a
    process count below 1; the handler is for [ImportError] only. *)
Definition setup_pool (options : Options) : M (option Pool) :=
  match proc options with
  | Some n =>
      if multiprocessing_available then
        if Z.ltb n 1 then
          raise (ValueError "Number of processes must be at least 1")
        else
          let pool := multiprocessing_Pool n in
          emit (E_debug "Operating in multiprocessing mode") ;;;
          ret (Some pool)
      else
        emit (E_warn "Failed to setup multiprocessing, using single processor") ;;;
        ret None
  | None =>
      emit (E_debug "Operating in single processor mode") ;;;
      ret None
  end.

(** Lines 143-148. *)
Definition select_iterator (options : Options) : M iterator :=
  if String.eqb (feature options) "gene" then ret flat_gene_iterator
  else if String.eqb (feature options) "transcript" then ret transcript_iterator
  else raise (ValueError (String.append "Unknown feature type " (feature options))).

(** Lines 150-159. *)
Definition select_getter (options : Options) : M getter :=
  if truth (bam options) then
    ret (make_getter (bam options) None None None (centre options))
  else if truth (plus_wig options) then
    ret (make_getter None (plus_wig options) (minus_wig options) None false)
  else if truth (bedfile options) then
    ret (make_getter None None None (bedfile options) false)
  else
    emit (E_error "Please specifiy one of bam file, bed file or wig file") ;;;
    sys_exit 1.

(** Lines 131-180, on the parsed options. *)
Definition run (options : Options) : M unit :=
  pool <- setup_pool options ;;
  iterator <- select_iterator options ;;
  bam <- select_getter options ;;
  results <- (emit (call_fdr iterator bam (rands options) (spread options) pool) ;;;
              call (get_crosslink_fdr_by_randomisation
                      iterator bam (rands options) (spread options) pool)) ;;
  let results := significant (threshold options) results in
  let results := map (bed_row log10) results in
  emit (stdout (to_csv csv_field results)) ;;;
  emit E_Stop.

Definition main (argv : CommandLine) : M unit :=
  options <- E_Start argv ;;
  run options.
End Script.

(** ** The FDR computation *)

(** Modelled from the spec: [iCLIP.get_crosslink_fdr_by_randomisation],
    the entry point [ComputeFDR(intervals, signalAccessor,
    numRandomizations, spread, executor)] of the core; the package
    [iCLIP] is not among the sources. The spec makes R = 0 and
    spread < 0 fatal configuration errors; otherwise the sequence of
    Result Records is computed, by [engine] here. *)
Definition ComputeFDR
    (engine : iterator -> getter -> Z -> Z -> option Pool -> DataFrame)
    (intervals : iterator) (signalAccessor : getter)
    (numRandomizations spread : Z) (executor : option Pool) : exn + DataFrame :=
  if Z.eqb numRandomizations 0 || Z.ltb spread 0 then
    inl (ConfigurationError "R=0 or spread<0")
  else
    inr (engine intervals signalAccessor numRandomizations spread executor).

(** ** Reading a command line

    The value the parser ends with for each option is the last one
    given; these functions name it, to state what a run does. *)

Fixpoint last_value {A : Type} (pick : Arg -> option A) (argv : CommandLine) :
    option A :=
  match argv with
  | [] => None
  | a :: rest =>
      match last_value pick rest with
      | Some v => Some v
      | None => pick a
      end
  end.

Definition arg_bam : CommandLine -> option string :=
  last_value (fun a => match a with opt_bam v => Some v | _ => None end).

Definition arg_plus_wig : CommandLine -> option string :=
  last_value (fun a => match a with opt_plus_wig v => Some v | _ => None end).

Definition arg_minus_wig : CommandLine -> option string :=
  last_value (fun a => match a with opt_minus_wig v => Some v | _ => None end).

Definition arg_bed : CommandLine -> option string :=
  last_value (fun a => match a with opt_bed v => Some v | _ => None end).

Definition arg_spread : CommandLine -> option Z :=
  last_value (fun a => match a with opt_spread v => Some v | _ => None end).

Definition arg_randomisations : CommandLine -> option Z :=
  last_value (fun a => match a with opt_randomisations v => Some v | _ => None end).

Definition arg_threshold : CommandLine -> option float64 :=
  last_value (fun a => match a with opt_threshold v => Some v | _ => None end).

Definition arg_feature : CommandLine -> option string :=
  last_value (fun a => match a with opt_feature v => Some v | _ => None end).

Definition arg_processes : CommandLine -> option Z :=
  last_value (fun a => match a with opt_processes v => Some v | _ => None end).

Definition is_centre (a : Arg) : bool :=
  match a with opt_centre => true | _ => false end.

Definition arg_centre (argv : CommandLine) : bool := existsb is_centre argv.

(** The options at which the parser stops. *)
Definition stops (a : Arg) : bool :=
  match a with
  | opt_help | opt_version | opt_refused _ _ => true
  | opt_feature v => negb (existsb (String.eqb v) ["transcript"; "gene"])
  | _ => false
  end.

(** The first option at which the parser stops, if any. *)
Definition first_stop (argv : CommandLine) : option Arg := find stops argv.

(** The parser reaches the end of the command line. *)
Definition accepted (argv : CommandLine) : Prop := first_stop argv = None.

(** What the program comes to when the parser stops at [a], an option at
    which it stops (the last case is for the others and is never met). *)
Definition stop_result {A : Type} (a : Arg) : M A :=
  match a with
  | opt_help => ([print_help], inl (SystemExit 0))
  | opt_version => ([print_version], inl (SystemExit 0))
  | opt_refused option_name value =>
      ([parser_error option_name value], inl (SystemExit 2))
  | opt_feature v => ([parser_error "--feature" v], inl (SystemExit 2))
  | _ => ([], inl (SystemExit 2))
  end.

(** The options the parser returns for [argv] when the feature is [f]. *)
Definition parsed (argv : CommandLine) (f : string) : Options :=
  {| bam := arg_bam argv;
     plus_wig := arg_plus_wig argv;
     minus_wig := arg_minus_wig argv;
     bedfile := arg_bed argv;
     spread := default 15 (arg_spread argv);
     rands := default 100 (arg_randomisations argv);
     threshold := default default_threshold (arg_threshold argv);
     feature := f;
     proc := arg_processes argv;
     centre := arg_centre argv |}.

(** The options the parser returns for an accepted command line. *)
Definition options_of (argv : CommandLine) : Options :=
  parsed argv (default "gene" (arg_feature argv)).

(** The values the parser holds after the options of [argv], when it
    held [values] before them and stops at none. *)
Definition overlay (argv : CommandLine) (values : Options) : Options :=
  {| bam := match arg_bam argv with Some v => Some v | None => bam values end;
     plus_wig :=
       match arg_plus_wig argv with Some v => Some v | None => plus_wig values end;
     minus_wig :=
       match arg_minus_wig argv with Some v => Some v | None => minus_wig values end;
     bedfile := match arg_bed argv with Some v => Some v | None => bedfile values end;
     spread := default (spread values) (arg_spread argv);
     rands := default (rands values) (arg_randomisations argv);
     threshold := default (threshold values) (arg_threshold argv);
     feature := default (feature values) (arg_feature argv);
     proc :=
       match arg_processes argv with Some v => Some v | None => proc values end;
     centre := arg_centre argv || centre values |}.

(** ** The values [main] computes on the way

    Used to state what a run does, step by step ([run_spec]). *)

(** The creation of the pool raises (line 134). *)
Definition pool_fails (multiprocessing_available : bool) (options : Options) :
    bool :=
  match proc options with
  | Some n => multiprocessing_available && Z.ltb n 1
  | None => false
  end.

Definition pool_raises (multiprocessing_available : bool) (argv : CommandLine) :
    bool :=
  match arg_processes argv with
  | Some n => multiprocessing_available && Z.ltb n 1
  | None => false
  end.

(** The pool that lines 131-141 leave in [pool]. *)
Definition pool_of (multiprocessing_available : bool) (options : Options) :
    option Pool :=
  match proc options with
  | Some n =>
      if multiprocessing_available && negb (Z.ltb n 1)
      then Some (multiprocessing_Pool n) else None
  | None => None
  end.

(** The message of lines 131-141. *)
Definition pool_note (multiprocessing_available : bool) (options : Options) :
    event :=
  match proc options with
  | Some n =>
      if multiprocessing_available
      then E_debug "Operating in multiprocessing mode"
      else E_warn "Failed to setup multiprocessing, using single processor"
  | None => E_debug "Operating in single processor mode"
  end.

(** The getter that lines 150-156 leave in [bam], when there is one. *)
Definition getter_of (options : Options) : option getter :=
  if truth (bam options) then
    Some (make_getter (bam options) None None None (centre options))
  else if truth (plus_wig options) then
    Some (make_getter None (plus_wig options) (minus_wig options) None false)
  else if truth (bedfile options) then
    Some (make_getter None None None (bedfile options) false)
  else None.

(** The iterator that lines 143-146 leave in [iterator]. *)
Definition iterator_of (options : Options) : iterator :=
  if String.eqb (feature options) "gene" then flat_gene_iterator
  else transcript_iterator.

Definition is_note (e : event) : Prop :=
  exists msg, e = E_debug msg \/ e = E_warn msg.

(** What a run on accepted options comes to. *)
Definition run_result avail
    (fdr : iterator -> getter -> Z -> Z -> option Pool -> exn + DataFrame)
    (log10 : float64 -> float64) (csv_field : cell -> string)
    (options : Options) : M unit :=
  if pool_fails avail options then
    ([], inl (Raise (ValueError "Number of processes must be at least 1")))
  else
  match getter_of options with
  | None =>
      ([pool_note avail options;
        E_error "Please specifiy one of bam file, bed file or wig file"],
       inl (SystemExit 1))
  | Some g =>
      match fdr (iterator_of options) g (rands options) (spread options)
              (pool_of avail options) with
      | inl err =>
          ([pool_note avail options;
            call_fdr (iterator_of options) g (rands options) (spread options)
              (pool_of avail options)],
           inl (Raise err))
      | inr results =>
          ([pool_note avail options;
            call_fdr (iterator_of options) g (rands options) (spread options)
              (pool_of avail options);
            stdout (to_csv csv_field
                      (map (bed_row log10)
                           (significant (threshold options) results)));
            E_Stop], inr tt)
      end
  end.

(** ** Variations of a command line, counts *)

Definition is_bam (a : Arg) : bool :=
  match a with opt_bam _ => true | _ => false end.

Definition is_plus_wig (a : Arg) : bool :=
  match a with opt_plus_wig _ => true | _ => false end.

Definition is_bed (a : Arg) : bool :=
  match a with opt_bed _ => true | _ => false end.

Definition is_processes (a : Arg) : bool :=
  match a with opt_processes _ => true | _ => false end.

(** The command line with every occurrence of an option taken out, and
    the option given once with the value [v], when there is one. *)
Definition with_bam (v : option string) (argv : CommandLine) : CommandLine :=
  filter (fun a => negb (is_bam a)) argv ++
  match v with Some s => [opt_bam s] | None => [] end.

Definition with_plus_wig (v : option string) (argv : CommandLine) : CommandLine :=
  filter (fun a => negb (is_plus_wig a)) argv ++
  match v with Some s => [opt_plus_wig s] | None => [] end.

Definition with_bed (v : option string) (argv : CommandLine) : CommandLine :=
  filter (fun a => negb (is_bed a)) argv ++
  match v with Some s => [opt_bed s] | None => [] end.

Definition with_centre (v : bool) (argv : CommandLine) : CommandLine :=
  filter (fun a => negb (is_centre a)) argv ++
  (if v then [opt_centre] else []).

Definition with_processes (v : option Z) (argv : CommandLine) : CommandLine :=
  filter (fun a => negb (is_processes a)) argv ++
  match v with Some n => [opt_processes n] | None => [] end.

Definition is_call (e : event) : bool :=
  match e with call_fdr _ _ _ _ _ => true | _ => false end.

Definition is_stdout (e : event) : bool :=
  match e with stdout _ => true | _ => false end.

Definition key_eq_dec (a b : key) : {a = b} + {a <> b}.
Proof.
  decide equality; [apply string_dec|].
  decide equality; [apply Z.eq_dec|apply string_dec].
Defined.

(** The distinct keys of the records of [df] whose FDR is at most [t]. *)
Definition keys_under (t : float64) (df : DataFrame) : list key :=
  nodup key_eq_dec (map key_of (boolean_mask (fun r => SFleb (FDR r) t) df)).

(** ** Sample inputs *)

Module Samples.

(** 0.01, 0.5, 5.0 and 9.0 as binary64 values. *)
Definition f0_01 : float64 := S754_finite false 5764607523034235 (-59).
Definition f0_5 : float64 := S754_finite false 4503599627370496 (-53).
Definition f5 : float64 := S754_finite false 5629499534213120 (-50).
Definition f9 : float64 := S754_finite false 5066549580791808 (-49).

(** The two records of the deduplication scenario. *)
Definition shallow : Result := mkResult "chr1" 100 f0_01 f5 "+".
Definition deep : Result := mkResult "chr1" 100 f0_01 f9 "+".
Definition scenario : DataFrame := [shallow; deep].

Definition weak : Result := mkResult "chr1" 7 f0_5 f9 "-".
Definition mixed : DataFrame :=
  [mkResult "chr2" 5 f0_01 f5 "+"; weak; shallow;
   mkResult "chr1" 100 f0_01 f5 "-"; deep].

(** A record at the largest int64 position. *)
Definition last_position : Result := mkResult "chr1" int64_max f0_01 f5 "+".

Definition no_option : CommandLine := [].

Definition only_minus_wig : CommandLine := [opt_minus_wig "minus.bw"].

Definition all_sources : CommandLine :=
  [opt_bam "clip.bam"; opt_plus_wig "plus.bw"; opt_minus_wig "minus.bw";
   opt_bed "clip.bed"; opt_feature "transcript"; opt_processes 4; opt_centre].

Definition wig_and_bed : CommandLine :=
  [opt_plus_wig "plus.bw"; opt_minus_wig "minus.bw"; opt_bed "clip.bed"].

Definition bed_only : CommandLine := [opt_bed "clip.bed"].

Definition no_randomisation : CommandLine :=
  [opt_bam "clip.bam"; opt_randomisations 0].

(** Command lines that do not reach the signal-source test. *)
Definition help_only : CommandLine := [opt_help].

Definition help_no_randomisation : CommandLine :=
  [opt_help; opt_bam "clip.bam"; opt_randomisations 0].

Definition minus_wig_bad_feature : CommandLine :=
  [opt_minus_wig "minus.bw"; opt_feature "exon"].

Definition bad_feature : CommandLine :=
  [opt_bam "clip.bam"; opt_processes 4; opt_feature "exon"; opt_help].

Definition engine (_ : iterator) (_ : getter) (_ _ : Z) (_ : option Pool) : DataFrame :=
  mixed.

Definition fdr (it : iterator) (g : getter) (r s : Z) (p : option Pool) :
    exn + DataFrame :=
  inr (engine it g r s p).

Definition field (c : cell) : string :=
  match c with
  | Str s => s
  | Int _ => "int"
  | Float _ => "float"
  end.

End Samples.

(** * Part II: properties *)

(** ** Orders *)

Lemma total_refl {A : Type} (le : A -> A -> bool) :
  total le -> forall a, le a a = true.
Proof.
  intros T a. destruct (le a a) eqn:E; [reflexivity|].
  now rewrite (T a a E) in E.
Qed.

Lemma flip_total_preorder {A : Type} (le : A -> A -> bool) :
  total_preorder le -> total_preorder (fun a b => le b a).
Proof.
  intros [T Tr]. split.
  - intros a b H. now apply T.
  - intros a b c H1 H2. exact (Tr _ _ _ H2 H1).
Qed.

Lemma on_total_preorder {A B : Type} (f : A -> B) (le : B -> B -> bool) :
  total_preorder le -> total_preorder (fun a b => le (f a) (f b)).
Proof.
  intros [T Tr]. split.
  - intros a b H. now apply T.
  - intros a b c H1 H2. exact (Tr _ _ _ H1 H2).
Qed.

Lemma Z_leb_total_preorder : total_preorder Z.leb.
Proof.
  split.
  - intros a b H. apply Z.leb_le. apply Z.leb_gt in H. lia.
  - intros a b c H1 H2. apply Z.leb_le. apply Z.leb_le in H1, H2. lia.
Qed.

(** Strings: [String.leb] is the order by character code. *)
Lemma string_leb_trans : transitive String.leb.
Proof.
  unfold transitive, String.leb.
  induction a as [|x a IH]; destruct b as [|y b], c as [|z c];
    simpl; try easy.
  unfold Ascii.compare.
  destruct (N.compare_spec (N_of_ascii x) (N_of_ascii y)) as [E1|L1|G1];
  destruct (N.compare_spec (N_of_ascii y) (N_of_ascii z)) as [E2|L2|G2];
  destruct (N.compare_spec (N_of_ascii x) (N_of_ascii z)) as [E3|L3|G3];
    try easy; try lia.
  apply IH.
Qed.

Lemma string_leb_total_preorder : total_preorder String.leb.
Proof.
  split; [|exact string_leb_trans].
  intros a b H. destruct (String.leb_total a b); congruence.
Qed.

Lemma string_ltb_leb (a b : string) :
  String.ltb a b = negb (String.leb b a).
Proof.
  unfold String.ltb, String.leb. rewrite (String.compare_antisym a b).
  now destruct (String.compare b a).
Qed.

Lemma string_ltb_irrefl (a : string) : String.ltb a a = false.
Proof.
  rewrite string_ltb_leb.
  now rewrite (total_refl _ (tp_total _ string_leb_total_preorder)).
Qed.

Lemma string_ltb_trans (a b c : string) :
  String.ltb a b = true -> String.ltb b c = true -> String.ltb a c = true.
Proof.
  rewrite !string_ltb_leb, !negb_true_iff. intros Hab Hbc.
  destruct (String.leb c a) eqn:E; [|reflexivity].
  pose proof (tp_total _ string_leb_total_preorder _ _ Hab) as Hab'.
  rewrite (string_leb_trans _ _ _ E Hab') in Hbc. discriminate.
Qed.

(** ** float64 *)

Module Float64Facts.

Ltac cmp_cases :=
  repeat match goal with
  | |- context [Z.compare ?a ?b] => destruct (Z.compare_spec a b)
  | H : context [Z.compare ?a ?b] |- _ => destruct (Z.compare_spec a b)
  | |- context [Pos.compare_cont Eq ?a ?b] =>
      change (Pos.compare_cont Eq a b) with (Pos.compare a b);
      destruct (Pos.compare_spec a b)
  | H : context [Pos.compare_cont Eq ?a ?b] |- _ =>
      change (Pos.compare_cont Eq a b) with (Pos.compare a b) in H;
      destruct (Pos.compare_spec a b)
  end.

Ltac float_order :=
  unfold SFleb, SFltb, SFeqb, SFcompare in *;
  repeat match goal with s : bool |- _ => destruct s end;
  simpl in *; try reflexivity; try discriminate;
  cmp_cases; simpl in *;
  try reflexivity; try discriminate; try congruence; try lia.

Lemma SFleb_total (x y : float64) :
  is_nan x = false -> is_nan y = false -> SFleb x y = false -> SFleb y x = true.
Proof.
  destruct x as [sx|sx| |sx mx ex], y as [sy|sy| |sy my ey];
    intros Hx Hy; try discriminate; float_order.
Qed.

Lemma SFleb_trans (x y z : float64) :
  SFleb x y = true -> SFleb y z = true -> SFleb x z = true.
Proof.
  destruct x as [sx|sx| |sx mx ex], y as [sy|sy| |sy my ey],
           z as [sz|sz| |sz mz ez]; float_order.
Qed.

Lemma SFleb_not_nan (x y : float64) :
  SFleb x y = true -> is_nan x = false /\ is_nan y = false.
Proof. destruct x, y; simpl; intros H; try discriminate; auto. Qed.

Lemma SFltb_not_leb (x y : float64) :
  SFltb x y = true -> SFleb y x = false.
Proof.
  destruct x as [sx|sx| |sx mx ex], y as [sy|sy| |sy my ey]; float_order.
Qed.

Lemma SFleb_not_ltb (x y : float64) :
  SFleb x y = true -> SFltb y x = false.
Proof.
  destruct x as [sx|sx| |sx mx ex], y as [sy|sy| |sy my ey]; float_order.
Qed.

Lemma SFeqb_leb (x y : float64) :
  SFeqb x y = true <-> SFleb x y = true /\ SFleb y x = true.
Proof.
  destruct x as [sx|sx| |sx mx ex], y as [sy|sy| |sy my ey];
    split; try (intros H; split; revert H); try (intros [H1 H2]; revert H1 H2);
    float_order.
Qed.

Lemma na_last_le_total_preorder (ascending : bool) :
  total_preorder (na_last_le ascending).
Proof.
  split.
  - intros x y H. unfold na_last_le in *.
    destruct (is_nan x) eqn:Nx, (is_nan y) eqn:Ny.
    + destruct x; try discriminate. destruct y; try discriminate.
    + destruct x; try discriminate. destruct y; try discriminate; reflexivity.
    + destruct y; try discriminate. destruct x; discriminate.
    + destruct ascending;
        destruct x; try discriminate; destruct y; try discriminate;
        apply SFleb_total; auto.
  - intros x y z Hxy Hyz. unfold na_last_le in *.
    destruct ascending;
      destruct x; try discriminate; destruct z; try reflexivity;
      destruct y; try discriminate; eapply SFleb_trans; eauto.
Qed.

End Float64Facts.
Import Float64Facts.

(** ** int64 *)

Lemma wrap64_in_range (z : Z) :
  - 2 ^ 63 <= z < 2 ^ 63 -> wrap64 z = z.
Proof.
  intros H. unfold wrap64. rewrite Z.mod_small; lia.
Qed.

(** ** Stable sort *)

Section StableSortFacts.
Context {A : Type} (le : A -> A -> bool).

Lemma insert_perm x l : Permutation (x :: l) (insert le x l).
Proof.
  induction l as [|y l IH]; simpl; [reflexivity|].
  destruct (le x y); [reflexivity|].
  rewrite perm_swap. now constructor.
Qed.

Lemma stable_sort_perm l : Permutation l (stable_sort le l).
Proof.
  induction l as [|x l IH]; simpl; [constructor|].
  rewrite <- insert_perm. now constructor.
Qed.

Lemma stable_sort_In l x : In x (stable_sort le l) <-> In x l.
Proof.
  split; apply Permutation_in; [symmetry|]; apply stable_sort_perm.
Qed.

Hypothesis le_order : total_preorder le.

Lemma insert_sorted x l :
  StronglySorted (fun a b => le a b = true) l ->
  StronglySorted (fun a b => le a b = true) (insert le x l).
Proof.
  induction 1 as [|y l Hl IH Hy]; simpl.
  - repeat constructor.
  - destruct (le x y) eqn:E.
    + constructor; [now constructor|].
      constructor; [exact E|].
      eapply Forall_impl; [|exact Hy].
      intros z Hz. eapply (tp_trans _ le_order); eauto.
    + constructor; [exact IH|].
      apply (tp_total _ le_order) in E.
      eapply Permutation_Forall; [apply insert_perm|].
      now constructor.
Qed.

Lemma stable_sort_sorted l :
  StronglySorted (fun a b => le a b = true) (stable_sort le l).
Proof.
  induction l as [|x l IH]; simpl; [constructor|now apply insert_sorted].
Qed.
End StableSortFacts.

Lemma lexsort_total_preorder {A : Type} (keys : list (A -> A -> bool)) :
  Forall total_preorder keys -> total_preorder (lexsort_le keys).
Proof.
  induction 1 as [|le keys [T Tr] _ [IT ITr]]; split.
  - intros a b H; reflexivity.
  - intros a b c _ _; reflexivity.
  - intros a b. simpl.
    destruct (le b a) eqn:Eba, (le a b) eqn:Eab; try discriminate; auto.
  - intros a b c. simpl.
    destruct (le b a) eqn:Eba, (le a b) eqn:Eab; try discriminate;
    destruct (le c b) eqn:Ecb, (le b c) eqn:Ebc; try discriminate;
    destruct (le c a) eqn:Eca, (le a c) eqn:Eac; try reflexivity;
    intros Hab Hbc; try discriminate; try (eapply ITr; eassumption);
    repeat match goal with
    | H : le ?x ?y = false |- _ =>
        lazymatch goal with
        | _ : le y x = true |- _ => fail
        | _ => pose proof (T _ _ H)
        end
    end;
    repeat match goal with
    | H1 : le ?x ?y = true, H2 : le ?y ?z = true |- _ =>
        lazymatch goal with
        | _ : le x z = true |- _ => fail
        | _ => pose proof (Tr _ _ _ H1 H2)
        end
    end; congruence.
Qed.

(** ** First occurrences *)

Section DedupFacts.
Context {A K : Type} (same : A -> A -> bool) (k : A -> K).
Hypothesis same_key : forall a b, same a b = true <-> k a = k b.

Lemma seen_spec x seen :
  existsb (same x) seen = true <-> In (k x) (map k seen).
Proof.
  rewrite existsb_exists, in_map_iff. split.
  - intros (y & Hy & E). exists y. split; [symmetry; now apply same_key|exact Hy].
  - intros (y & E & Hy). exists y. split; [exact Hy|apply same_key; now symmetry].
Qed.

Lemma dedup_In seen l x :
  In x (dedup same seen l) -> In x l /\ ~ In (k x) (map k seen).
Proof.
  revert seen. induction l as [|y l IH]; simpl; intros seen H; [contradiction|].
  destruct (existsb (same y) seen) eqn:E.
  - apply IH in H. tauto.
  - destruct H as [->|H].
    + split; [now left|]. rewrite <- seen_spec. now rewrite E.
    + apply IH in H. simpl in H. tauto.
Qed.

Lemma dedup_NoDup seen l : NoDup (map k (dedup same seen l)).
Proof.
  revert seen. induction l as [|y l IH]; simpl; intros seen; [constructor|].
  destruct (existsb (same y) seen) eqn:E; [apply IH|].
  simpl. constructor; [|apply IH].
  rewrite in_map_iff. intros (z & Ez & Hz).
  apply dedup_In in Hz. destruct Hz as [_ Hz]. apply Hz. simpl. now left.
Qed.

Lemma dedup_complete seen l x :
  In x l -> In (k x) (map k seen) \/ In (k x) (map k (dedup same seen l)).
Proof.
  revert seen. induction l as [|y l IH]; simpl; intros seen H; [contradiction|].
  destruct (existsb (same y) seen) eqn:E.
  - destruct H as [->|H]; [left; now apply seen_spec|now apply IH].
  - destruct H as [->|H]; [right; now left|].
    destruct (IH (y :: seen) H) as [[Hy|Hs]|Hd].
    + right. left. exact Hy.
    + now left.
    + right. now right.
Qed.

(** A row that is kept is the first of its class in the table. *)
Lemma dedup_first seen l x :
  In x (dedup same seen l) ->
  exists l1 l2, l = l1 ++ x :: l2 /\ forall y, In y l1 -> k y <> k x.
Proof.
  revert seen. induction l as [|y l IH]; simpl; intros seen H; [contradiction|].
  destruct (existsb (same y) seen) eqn:E.
  - pose proof (dedup_In _ _ _ H) as [_ Hx].
    destruct (IH _ H) as (l1 & l2 & -> & Hl1).
    exists (y :: l1), l2. split; [reflexivity|].
    intros z [<-|Hz]; [|now apply Hl1].
    intros Ek. apply Hx. rewrite <- Ek. now apply seen_spec.
  - destruct H as [->|H].
    + exists [], l. split; [reflexivity|]. intros z [].
    + pose proof (dedup_In _ _ _ H) as [_ Hx].
      destruct (IH _ H) as (l1 & l2 & -> & Hl1).
      exists (y :: l1), l2. split; [reflexivity|].
      intros z [<-|Hz]; [|now apply Hl1].
      intros Ek. apply Hx. simpl. now left.
Qed.

Lemma NoDup_key_count l x :
  NoDup (map k l) -> In x l -> List.length (filter (same x) l) = 1%nat.
Proof.
  induction l as [|y l IH]; simpl; intros ND H; [contradiction|].
  inversion ND as [|? ? Hy ND']; subst.
  destruct (same x y) eqn:E.
  - apply same_key in E. simpl. f_equal.
    assert (Hnone : forall z, In z l -> same x z = false).
    { intros z Hz. destruct (same x z) eqn:Ez; [|reflexivity].
      apply same_key in Ez. exfalso. apply Hy. rewrite <- E, Ez.
      now apply in_map. }
    clear -Hnone. induction l as [|z l IHl]; simpl; [reflexivity|].
    rewrite (Hnone z (or_introl eq_refl)). apply IHl.
    intros w Hw. apply Hnone. now right.
  - destruct H as [->|H].
    + assert (same x x = true) by now apply same_key. congruence.
    + now apply IH.
Qed.

(** In a sorted table the row kept for a key is before every row of
    that key. *)
Lemma dedup_sorted_least (le : A -> A -> bool) l x y :
  total le ->
  StronglySorted (fun a b => le a b = true) l ->
  In x (dedup same [] l) -> In y l -> k y = k x -> le x y = true.
Proof.
  intros T S Hx Hy Ek.
  destruct (dedup_first _ _ _ Hx) as (l1 & l2 & -> & Hl1).
  apply in_app_or in Hy. destruct Hy as [Hy|[<-|Hy]].
  - now apply Hl1 in Hy.
  - now apply total_refl.
  - clear Hx Hl1. induction l1 as [|z l1 IH]; simpl in S.
    + inversion S as [|? ? _ F]; subst.
      rewrite Forall_forall in F. now apply F.
    + inversion S; subst. now apply IH.
Qed.
End DedupFacts.

(** ** Columns, keys *)

Lemma column_le_total_preorder (by_asc : column * bool) :
  total_preorder (column_le by_asc).
Proof.
  destruct by_asc as [c asc]. unfold column_le; simpl.
  destruct c; simpl.
  - destruct asc;
      [apply (on_total_preorder contig _ string_leb_total_preorder)
      |apply (on_total_preorder contig _
                (flip_total_preorder _ string_leb_total_preorder))].
  - destruct asc;
      [apply (on_total_preorder start _ Z_leb_total_preorder)
      |apply (on_total_preorder start _
                (flip_total_preorder _ Z_leb_total_preorder))].
  - apply (on_total_preorder FDR _ (na_last_le_total_preorder asc)).
  - apply (on_total_preorder depth _ (na_last_le_total_preorder asc)).
  - destruct asc;
      [apply (on_total_preorder strand _ string_leb_total_preorder)
      |apply (on_total_preorder strand _
                (flip_total_preorder _ string_leb_total_preorder))].
Qed.

Lemma sort_order (by_ : list column) (ascending : list bool) :
  total_preorder (lexsort_le (map column_le (combine by_ ascending))).
Proof.
  apply lexsort_total_preorder. rewrite Forall_forall.
  intros le Hle. apply in_map_iff in Hle. destruct Hle as (c & <- & _).
  apply column_le_total_preorder.
Qed.

Lemma sort_values_In by_ ascending df r :
  In r (sort_values by_ ascending df) <-> In r df.
Proof. apply stable_sort_In. Qed.

Lemma sort_values_perm by_ ascending df :
  Permutation df (sort_values by_ ascending df).
Proof. apply stable_sort_perm. Qed.

Lemma same_on_key (a b : Result) :
  same_on [Ccontig; Cstart; Cstrand] a b = true <-> key_of a = key_of b.
Proof.
  unfold same_on, key_of; simpl.
  rewrite !andb_true_iff, !String.eqb_eq, Z.eqb_eq.
  destruct a, b; simpl. split.
  - intros (-> & -> & -> & _). reflexivity.
  - intros E. inversion E; subst. auto.
Qed.

(** ** The rows kept for output *)

Lemma significant_In t df r :
  In r (significant t df) -> In r df /\ SFleb (FDR r) t = true.
Proof.
  unfold significant. intros H.
  apply sort_values_In in H.
  apply (dedup_In _ key_of same_on_key) in H. destruct H as [H _].
  apply sort_values_In in H.
  unfold boolean_mask in H. now apply filter_In in H.
Qed.

Lemma significant_NoDup t df : NoDup (map key_of (significant t df)).
Proof.
  unfold significant.
  eapply Permutation_NoDup.
  - apply Permutation_map. apply sort_values_perm.
  - apply (dedup_NoDup _ key_of same_on_key).
Qed.

Lemma significant_complete t df r :
  In r df -> SFleb (FDR r) t = true ->
  exists best, In best (significant t df) /\ key_of best = key_of r.
Proof.
  intros Hr Ht. unfold significant.
  assert (Hs : In r (sort_values [CFDR; Cdepth] [true; false]
                       (boolean_mask (fun r => SFleb (FDR r) t) df))).
  { apply sort_values_In. unfold boolean_mask. apply filter_In. now split. }
  destruct (dedup_complete _ key_of same_on_key [] _ _ Hs) as [[]|H].
  apply in_map_iff in H. destruct H as (best & E & Hb).
  exists best. split; [|exact E].
  apply sort_values_In. exact Hb.
Qed.

Lemma significant_least t df best r :
  In best (significant t df) ->
  In r df -> SFleb (FDR r) t = true -> key_of r = key_of best ->
  lexsort_le (map column_le (combine [CFDR; Cdepth] [true; false])) best r = true.
Proof.
  unfold significant. intros Hb Hr Ht Ek.
  apply sort_values_In in Hb.
  eapply (dedup_sorted_least _ key_of same_on_key); eauto.
  - apply sort_order.
  - apply stable_sort_sorted, sort_order.
  - apply sort_values_In. unfold boolean_mask. apply filter_In. now split.
Qed.

(** What the order of the first sort says of two rows under the
    threshold. *)
Lemma first_sort_order (a b : Result) :
  is_nan (FDR a) = false -> is_nan (FDR b) = false ->
  lexsort_le (map column_le (combine [CFDR; Cdepth] [true; false])) a b = true ->
  SFleb (FDR a) (FDR b) = true /\
  (SFeqb (FDR b) (FDR a) = true ->
   SFltb (depth a) (depth b) = false /\
   (is_nan (depth b) = false ->
    is_nan (depth a) = false /\ SFleb (depth b) (depth a) = true)).
Proof.
  intros Na Nb. simpl. unfold column_le; simpl.
  assert (EF : forall x y, is_nan x = false -> is_nan y = false ->
                           na_last_le true x y = SFleb x y).
  { intros x y Hx Hy. destruct x; try discriminate; destruct y; try discriminate;
      reflexivity. }
  rewrite !EF by assumption.
  destruct (SFleb (FDR b) (FDR a)) eqn:Eba.
  - destruct (SFleb (FDR a) (FDR b)) eqn:Eab; [|discriminate].
    intros H. split; [reflexivity|]. intros _.
    assert (HD : na_last_le false (depth a) (depth b) = true).
    { destruct (na_last_le false (depth b) (depth a)) eqn:E1.
      - destruct (na_last_le false (depth a) (depth b)); [reflexivity|discriminate].
      - now apply (tp_total _ (na_last_le_total_preorder false)). }
    clear H. unfold na_last_le in HD.
    destruct (depth b) eqn:Db; destruct (depth a) eqn:Da;
      try discriminate;
      (split;
       [first [reflexivity | now apply SFleb_not_ltb]
       |intros N; first [discriminate | split; [reflexivity|exact HD]]]).
  - intros _. split; [now apply SFleb_total|].
    intros E. apply SFeqb_leb in E. destruct E as [E _]. congruence.
Qed.

(** The order of the last sort is the order of the keys. *)
Lemma last_sort_order (a b : Result) :
  lexsort_le (map column_le (combine [Ccontig; Cstart; Cstrand] [true; true; true]))
    a b = true ->
  key_of a <> key_of b -> key_lt (key_of a) (key_of b).
Proof.
  unfold key_of, key_lt, column_le; simpl.
  destruct a as [ca sa fa da ta], b as [cb sb fb db tb]; simpl.
  rewrite !string_ltb_leb.
  destruct (String.leb cb ca) eqn:C1; [|intros _ _; now left].
  destruct (String.leb ca cb) eqn:C2; [|discriminate].
  pose proof (String.leb_antisym _ _ C2 C1) as ->.
  destruct (Z.leb sb sa) eqn:S1;
    [|intros _ _; right; split; [reflexivity|left; apply Z.leb_gt in S1; lia]].
  destruct (Z.leb sa sb) eqn:S2; [|discriminate].
  assert (sa = sb) as -> by (apply Z.leb_le in S1, S2; lia).
  destruct (String.leb tb ta) eqn:T1;
    [|intros _ _; right; split; [reflexivity|right; split; reflexivity]].
  destruct (String.leb ta tb) eqn:T2; [|discriminate].
  pose proof (String.leb_antisym _ _ T2 T1) as ->.
  intros _ N. now contradiction N.
Qed.

Lemma key_lt_irrefl (a : key) : ~ key_lt a a.
Proof.
  destruct a as [[c s] d]. unfold key_lt. rewrite !string_ltb_irrefl.
  intros [H|[_ [H|[_ H]]]]; try discriminate; lia.
Qed.

Lemma key_lt_trans (a b c : key) : key_lt a b -> key_lt b c -> key_lt a c.
Proof.
  destruct a as [[c1 s1] d1], b as [[c2 s2] d2], c as [[c3 s3] d3].
  unfold key_lt.
  intros [H1|[-> [H1|[-> H1]]]] [H2|[-> [H2|[-> H2]]]];
    try (left; eauto using string_ltb_trans; fail);
    right; split; try reflexivity;
    try (left; lia);
    right; split; try reflexivity; eauto using string_ltb_trans.
Qed.

Lemma sorted_keys {A : Type} (k : A -> key) (le : A -> A -> bool) (l : list A) :
  (forall a b, le a b = true -> k a <> k b -> key_lt (k a) (k b)) ->
  StronglySorted (fun a b => le a b = true) l ->
  NoDup (map k l) ->
  StronglySorted key_lt (map k l).
Proof.
  intros Hle. induction 1 as [|a l S IH F]; simpl; intros ND; [constructor|].
  inversion ND as [|? ? Ha ND']; subst.
  constructor; [now apply IH|].
  rewrite Forall_forall in *. intros kb Hb.
  apply in_map_iff in Hb. destruct Hb as (b & <- & Hb).
  apply Hle; [now apply F|].
  intros E. apply Ha. rewrite E. now apply in_map.
Qed.

(** Two strictly sorted lists with the same elements are equal. *)
Lemma sorted_keys_unique (l1 l2 : list key) :
  StronglySorted key_lt l1 -> StronglySorted key_lt l2 ->
  (forall x, In x l1 <-> In x l2) -> l1 = l2.
Proof.
  intros S1. revert l2. induction S1 as [|a l1 S1 IH F1]; intros l2 S2 E.
  - destruct l2 as [|b l2]; [reflexivity|].
    destruct (proj2 (E b) (or_introl eq_refl)).
  - destruct S2 as [|b l2 S2 F2].
    + destruct (proj1 (E a) (or_introl eq_refl)).
    + rewrite Forall_forall in F1, F2.
      assert (a = b) as ->.
      { destruct (proj1 (E a) (or_introl eq_refl)) as [Hab|Hab]; [now symmetry|].
        destruct (proj2 (E b) (or_introl eq_refl)) as [Hba|Hba]; [assumption|].
        exfalso. apply (key_lt_irrefl a).
        eapply key_lt_trans; [apply F1; exact Hba|apply F2; exact Hab]. }
      f_equal. apply IH; [exact S2|].
      intros x. split; intros Hx.
      * destruct (proj1 (E x) (or_intror Hx)) as [<-|H]; [|exact H].
        exfalso. apply (key_lt_irrefl b). now apply F1.
      * destruct (proj2 (E x) (or_intror Hx)) as [<-|H]; [|exact H].
        exfalso. apply (key_lt_irrefl b). now apply F2.
Qed.

Lemma significant_keys t df (k : key) :
  In k (map key_of (significant t df)) <->
  exists r, In r df /\ SFleb (FDR r) t = true /\ key_of r = k.
Proof.
  rewrite in_map_iff. split.
  - intros (r & E & H). apply significant_In in H. exists r. tauto.
  - intros (r & H & Ht & E).
    destruct (significant_complete t df r H Ht) as (best & Hb & Eb).
    exists best. split; [congruence|exact Hb].
Qed.

Lemma significant_sorted t df :
  StronglySorted key_lt (map key_of (significant t df)).
Proof.
  apply sorted_keys with
    (le := lexsort_le (map column_le
             (combine [Ccontig; Cstart; Cstrand] [true; true; true]))).
  - exact last_sort_order.
  - unfold significant, sort_values. apply stable_sort_sorted, sort_order.
  - apply significant_NoDup.
Qed.

(** ** Claims on the table written *)

(** C1. Among the records under the threshold that share a key
    (contig, start, strand), exactly one is in the output; it has the
    lowest FDR among them and, among those that tie with it on FDR, the
    highest depth: none is deeper, and it is at least as deep as every
    one whose depth is a number. *)
Theorem duplicates_keep_lowest_FDR_then_highest_depth
    (t : float64) (df : DataFrame) (r : Result) :
  In r df -> SFleb (FDR r) t = true ->
  exists best,
    In best (significant t df) /\ key_of best = key_of r /\
    In best df /\ SFleb (FDR best) t = true /\
    List.length
      (filter (same_on [Ccontig; Cstart; Cstrand] r) (significant t df)) = 1%nat /\
    forall r', In r' df -> SFleb (FDR r') t = true -> key_of r' = key_of r ->
      SFleb (FDR best) (FDR r') = true /\
      (SFeqb (FDR r') (FDR best) = true ->
       SFltb (depth best) (depth r') = false /\
       (is_nan (depth r') = false ->
        is_nan (depth best) = false /\ SFleb (depth r') (depth best) = true)).
Proof.
  intros Hr Ht.
  destruct (significant_complete t df r Hr Ht) as (best & Hb & Ek).
  destruct (significant_In _ _ _ Hb) as [Hbdf Hbt].
  exists best.
  split; [exact Hb|]. split; [exact Ek|]. split; [exact Hbdf|].
  split; [exact Hbt|]. split.
  - rewrite (filter_ext _ (same_on [Ccontig; Cstart; Cstrand] best)).
    + apply (NoDup_key_count _ key_of same_on_key);
        [apply significant_NoDup|exact Hb].
    + intros x. apply eq_true_iff_eq. rewrite !same_on_key. now rewrite Ek.
  - intros r' Hr' Ht' Ek'. apply first_sort_order.
    + now apply SFleb_not_nan in Hbt.
    + now apply SFleb_not_nan in Ht'.
    + eapply significant_least; eauto. congruence.
Qed.

Lemma duplicates_keep_lowest_FDR_then_highest_depth_witness :
  exists best,
    In best (significant default_threshold Samples.scenario) /\
    key_of best = key_of Samples.shallow /\
    In best Samples.scenario /\ SFleb (FDR best) default_threshold = true /\
    List.length
      (filter (same_on [Ccontig; Cstart; Cstrand] Samples.shallow)
         (significant default_threshold Samples.scenario)) = 1%nat /\
    forall r', In r' Samples.scenario -> SFleb (FDR r') default_threshold = true ->
      key_of r' = key_of Samples.shallow ->
      SFleb (FDR best) (FDR r') = true /\
      (SFeqb (FDR r') (FDR best) = true ->
       SFltb (depth best) (depth r') = false /\
       (is_nan (depth r') = false ->
        is_nan (depth best) = false /\ SFleb (depth r') (depth best) = true)).
Proof.
  apply (duplicates_keep_lowest_FDR_then_highest_depth
           default_threshold Samples.scenario Samples.shallow).
  - simpl. left. reflexivity.
  - reflexivity.
Defined.

(** The deduplication scenario: of two records at chr1:100:+ with FDR
    0.01 and depths 5 and 9, the one of depth 9 is written. *)
Example deduplication_scenario :
  significant default_threshold Samples.scenario = [Samples.deep].
Proof. reflexivity. Qed.

(** C3. A record is in the output only if its FDR is at most the
    threshold; no record whose FDR is above the threshold is in it, and
    such records are gone before the duplicates are removed: taking
    them out of the table beforehand changes nothing. *)
Theorem output_within_threshold (t : float64) (df : DataFrame) :
  (forall r, In r (significant t df) -> In r df /\ SFleb (FDR r) t = true) /\
  (forall r, SFltb t (FDR r) = true -> ~ In r (significant t df)) /\
  significant t df =
    significant t (filter (fun r => negb (SFltb t (FDR r))) df).
Proof.
  split; [|split].
  - intros r. apply significant_In.
  - intros r Hgt Hin. apply significant_In in Hin. destruct Hin as [_ Hle].
    apply SFltb_not_leb in Hgt. congruence.
  - unfold significant, boolean_mask. do 3 f_equal.
    induction df as [|r df IH]; simpl; [reflexivity|].
    destruct (SFleb (FDR r) t) eqn:E.
    + rewrite (SFleb_not_ltb _ _ E). simpl. rewrite E. now f_equal.
    + destruct (SFltb t (FDR r)); simpl; [exact IH|]. now rewrite E.
Qed.

Lemma output_within_threshold_witness :
  (In Samples.deep Samples.mixed /\
   SFleb (FDR Samples.deep) default_threshold = true) /\
  ~ In Samples.weak (significant default_threshold Samples.mixed).
Proof.
  split.
  - apply (proj1 (output_within_threshold default_threshold Samples.mixed)).
    simpl. left. reflexivity.
  - apply (proj1 (proj2 (output_within_threshold default_threshold Samples.mixed))).
    reflexivity.
Defined.

(** C4. The output is sorted on the key (contig, start, strand): its
    keys are in strictly ascending lexicographic order. The sort loses
    and adds nothing: the rows written are the rows that drop_duplicates
    has kept, one for each key present under the threshold. The
    sequence of keys is the same for every order of the rows of the
    table. *)
Theorem output_sorted_by_key (t : float64) (df : DataFrame) :
  StronglySorted key_lt (map key_of (significant t df)) /\
  Permutation
    (significant t df)
    (drop_duplicates [Ccontig; Cstart; Cstrand]
       (sort_values [CFDR; Cdepth] [true; false]
          (boolean_mask (fun r => SFleb (FDR r) t) df))) /\
  (forall k, In k (map key_of (significant t df)) <->
             exists r, In r df /\ SFleb (FDR r) t = true /\ key_of r = k) /\
  forall df', Permutation df df' ->
    map key_of (significant t df') = map key_of (significant t df).
Proof.
  split; [apply significant_sorted|].
  split; [symmetry; apply sort_values_perm|].
  split; [apply significant_keys|].
  intros df' P. apply sorted_keys_unique; try apply significant_sorted.
  intros k. rewrite !significant_keys.
  split; intros (r & Hr & H); exists r; (split; [|exact H]).
  - eapply Permutation_in; [symmetry; exact P|exact Hr].
  - eapply Permutation_in; [exact P|exact Hr].
Qed.

Lemma output_sorted_by_key_witness :
  map key_of (significant default_threshold (rev Samples.mixed)) =
  map key_of (significant default_threshold Samples.mixed).
Proof.
  apply (proj2 (proj2 (proj2
           (output_sorted_by_key default_threshold Samples.mixed)))).
  apply Permutation_rev.
Defined.

(** The sorted output of the sample table, whatever the order of its
    rows. *)
Example sorted_sample :
  map key_of (significant default_threshold Samples.mixed) =
    [("chr1", 100, "+"); ("chr1", 100, "-"); ("chr2", 5, "+")] /\
  significant default_threshold (rev Samples.mixed) =
    significant default_threshold Samples.mixed.
Proof. split; reflexivity. Qed.

(** C2, as the claim states it, fails at the last int64 position: the
    sum [start + 1] wraps. *)
Lemma end_wraps_at_int64_max :
  ~ (forall (log10 : float64 -> float64) (t : float64) (df : DataFrame) (r : Result),
       In r (significant t df) ->
       row_end (bed_row log10 r) = row_start (bed_row log10 r) + 1).
Proof.
  intros H.
  specialize (H (fun x => x) default_threshold [Samples.last_position]
                Samples.last_position (or_introl eq_refl)).
  vm_compute in H. discriminate.
Qed.

(** C2, amended. Every record of the output gives one line and there
    is no other line; the fields of a line are contig, start, end,
    score, depth, strand in that order, joined by tabs, with
    score = -log10(FDR) and end = start + 1 in int64 arithmetic. For a
    record whose start is an int64 below the largest one, end is
    start + 1; at the largest int64 it is the smallest one. *)
Theorem rows_written
    (log10 : float64 -> float64) (csv_field : cell -> string)
    (t : float64) (df : DataFrame) :
  map cells (map (bed_row log10) (significant t df)) =
    map (fun r => [Str (contig r); Int (start r); Int (wrap64 (start r + 1));
                   Float (SFopp (log10 (FDR r))); Float (depth r);
                   Str (strand r)])
        (significant t df) /\
  to_csv csv_field (map (bed_row log10) (significant t df)) =
    map (fun r =>
           String.concat tab
             [csv_field (Str (contig r)); csv_field (Int (start r));
              csv_field (Int (wrap64 (start r + 1)));
              csv_field (Float (SFopp (log10 (FDR r))));
              csv_field (Float (depth r)); csv_field (Str (strand r))])
        (significant t df) /\
  (forall r, In r (significant t df) ->
     (- 2 ^ 63 <= start r < int64_max ->
      row_start (bed_row log10 r) = start r /\
      row_end (bed_row log10 r) = start r + 1) /\
     (start r = int64_max -> row_end (bed_row log10 r) = - 2 ^ 63)).
Proof.
  split; [|split].
  - rewrite map_map. apply map_ext. reflexivity.
  - unfold to_csv. rewrite map_map. apply map_ext. reflexivity.
  - intros r _. unfold bed_row, astype_int; simpl. split.
    + intros R. split; [reflexivity|].
      apply wrap64_in_range. unfold int64_max in R. lia.
    + intros ->. reflexivity.
Qed.

Lemma rows_written_witness :
  (row_start (bed_row (fun x => x) Samples.deep) = 100 /\
   row_end (bed_row (fun x => x) Samples.deep) = 100 + 1) /\
  row_end (bed_row (fun x => x) Samples.last_position) = - 2 ^ 63.
Proof.
  split.
  - apply (proj1 (proj2 (proj2 (rows_written (fun x => x) Samples.field
                                  default_threshold Samples.scenario))
                   Samples.deep (or_introl eq_refl))).
    unfold int64_max. simpl. lia.
  - apply (proj2 (proj2 (proj2 (rows_written (fun x => x) Samples.field
                                  default_threshold [Samples.last_position]))
                   Samples.last_position (or_introl eq_refl))).
    reflexivity.
Defined.

(** The lines of the deduplication scenario, field by field. *)
Example scenario_cells :
  map cells (map (bed_row (fun x => x))
                 (significant default_threshold Samples.scenario)) =
  [[Str "chr1"; Int 100; Int 101; Float (SFopp Samples.f0_01);
    Float Samples.f9; Str "+"]].
Proof. reflexivity. Qed.

(** ** The parser *)

Lemma bind_ret_l {A B : Type} (a : A) (f : A -> M B) : bind (ret a) f = f a.
Proof. unfold bind, ret. now destruct (f a). Qed.

Lemma process_option_stops (a : Arg) (values : Options) :
  stops a = true -> process_option a values = stop_result a.
Proof.
  destruct a; simpl; try discriminate; try reflexivity.
  unfold check_choice. simpl.
  destruct (String.eqb value "transcript" || (String.eqb value "gene" || false));
    [discriminate|reflexivity].
Qed.

Lemma process_option_stores (a : Arg) (values : Options) :
  stops a = false ->
  process_option a values = ([], inr (overlay [a] values)).
Proof.
  intros S. destruct a; simpl in S; try discriminate;
    try (destruct values; reflexivity).
  apply negb_false_iff in S. simpl. unfold check_choice. simpl. rewrite S.
  destruct values; reflexivity.
Qed.

Lemma overlay_nil (values : Options) : overlay [] values = values.
Proof. destruct values; reflexivity. Qed.

Lemma overlay_cons (a : Arg) (rest : CommandLine) (values : Options) :
  overlay rest (overlay [a] values) = overlay (a :: rest) values.
Proof.
  unfold overlay, arg_bam, arg_plus_wig, arg_minus_wig, arg_bed, arg_spread,
    arg_randomisations, arg_threshold, arg_feature, arg_processes, arg_centre,
    default; simpl.
  f_equal;
    try (match goal with
         | |- context [last_value ?p rest] => destruct (last_value p rest)
         end; try reflexivity; destruct a; reflexivity).
  destruct (existsb is_centre rest); simpl.
  - now rewrite orb_true_r.
  - now rewrite orb_false_r.
Qed.

(** The parser stops at the first option that stops it, and otherwise
    returns the last value of each option. *)
Lemma parse_args_spec (argv : CommandLine) (values : Options) :
  parse_args argv values =
  match first_stop argv with
  | Some a => stop_result a
  | None => ([], inr (overlay argv values))
  end.
Proof.
  revert values. induction argv as [|a rest IH]; intros values.
  - simpl. now rewrite overlay_nil.
  - unfold first_stop. simpl. destruct (stops a) eqn:S.
    + rewrite (process_option_stops _ _ S).
      destruct a; try discriminate; reflexivity.
    + rewrite (process_option_stores _ _ S).
      change (bind ([], inr (overlay [a] values)) (fun v => parse_args rest v))
        with (bind (ret (overlay [a] values)) (fun v => parse_args rest v)).
      rewrite bind_ret_l, IH. unfold first_stop.
      destruct (find stops rest); [reflexivity|]. now rewrite overlay_cons.
Qed.

Lemma E_Start_spec (argv : CommandLine) :
  E_Start argv =
  match first_stop argv with
  | Some a => stop_result a
  | None => ([], inr (parsed argv (default "gene" (arg_feature argv))))
  end.
Proof.
  unfold E_Start. rewrite parse_args_spec.
  destruct (first_stop argv); [reflexivity|].
  unfold overlay, parsed, defaults; simpl. do 2 f_equal.
  f_equal;
    try (match goal with |- context [match ?x with _ => _ end] => now destruct x end).
  apply orb_false_r.
Qed.

Lemma first_stop_stops (argv : CommandLine) (a : Arg) :
  first_stop argv = Some a -> stops a = true.
Proof. intros H. now apply find_some in H. Qed.

(** On an accepted command line the feature is one of the two choices. *)
Lemma accepted_feature (argv : CommandLine) :
  accepted argv ->
  arg_feature argv = None \/ arg_feature argv = Some "gene" \/
  arg_feature argv = Some "transcript".
Proof.
  unfold accepted, first_stop, arg_feature.
  induction argv as [|a rest IH]; simpl; [auto|].
  destruct (stops a) eqn:S; [discriminate|]. intros H.
  destruct (IH H) as [E|[E|E]]; rewrite E; auto.
  destruct a; auto. simpl in S.
  destruct (String.eqb_spec value "transcript") as [->|]; [auto|].
  destruct (String.eqb_spec value "gene") as [->|]; [auto|discriminate].
Qed.

Lemma accepted_feature_default (argv : CommandLine) :
  accepted argv ->
  default "gene" (arg_feature argv) = "gene" \/
  default "gene" (arg_feature argv) = "transcript".
Proof.
  intros H. destruct (accepted_feature argv H) as [E|[E|E]]; rewrite E; auto.
Qed.

(** What the parser has stopped at leaves nothing of a run in the log. *)
Lemma stop_result_log (a : Arg) (e : event) :
  stops a = true -> In e (log_of (@stop_result unit a)) ->
  e = print_help \/ e = print_version \/ exists n v, e = parser_error n v.
Proof.
  destruct a; simpl; try discriminate; intros _ [<-|[]]; eauto.
Qed.

Lemma stop_result_status (a : Arg) :
  stops a = true ->
  (exit_status (stop_result a) = 0 /\ (a = opt_help \/ a = opt_version)) \/
  (exit_status (stop_result a) = 2 /\
   exists n v, log_of (@stop_result unit a) = [parser_error n v]).
Proof.
  destruct a; simpl; try discriminate; intros _; unfold exit_status; simpl;
    eauto 7.
Qed.

(** ** The control flow of [main] *)

Section MainFacts.
Variable multiprocessing_available : bool.
Variable fdr : iterator -> getter -> Z -> Z -> option Pool -> exn + DataFrame.
Variable log10 : float64 -> float64.
Variable csv_field : cell -> string.

Lemma main_parsed (argv : CommandLine) (options : Options) :
  E_Start argv = ([], inr options) ->
  main multiprocessing_available fdr log10 csv_field argv =
  run multiprocessing_available fdr log10 csv_field options.
Proof.
  intros E. unfold main. rewrite E. simpl.
  now destruct (run multiprocessing_available fdr log10 csv_field options).
Qed.

Lemma main_stopped (argv : CommandLine) (a : Arg) :
  first_stop argv = Some a ->
  main multiprocessing_available fdr log10 csv_field argv = stop_result a.
Proof.
  intros E. unfold main. rewrite E_Start_spec, E.
  pose proof (first_stop_stops _ _ E) as S.
  destruct a; try discriminate; reflexivity.
Qed.

Lemma pool_note_is_note (options : Options) :
  is_note (pool_note multiprocessing_available options).
Proof.
  unfold pool_note, is_note.
  destruct (proc options); [destruct multiprocessing_available|]; eauto.
Qed.

Lemma setup_pool_spec (options : Options) :
  setup_pool multiprocessing_available options =
  if pool_fails multiprocessing_available options
  then ([], inl (Raise (ValueError "Number of processes must be at least 1")))
  else ([pool_note multiprocessing_available options],
        inr (pool_of multiprocessing_available options)).
Proof.
  unfold setup_pool, pool_fails, pool_of, pool_note.
  destruct (proc options) as [n|]; [|reflexivity].
  destruct multiprocessing_available; [|reflexivity].
  simpl. now destruct (Z.ltb n 1).
Qed.

Lemma select_iterator_spec (options : Options) :
  feature options = "gene" \/ feature options = "transcript" ->
  select_iterator options = ([], inr (iterator_of options)).
Proof.
  unfold select_iterator, iterator_of. intros [->| ->]; reflexivity.
Qed.

(** A run on accepted options, step by step. *)
Lemma run_spec (options : Options) :
  feature options = "gene" \/ feature options = "transcript" ->
  run multiprocessing_available fdr log10 csv_field options =
  run_result multiprocessing_available fdr log10 csv_field options.
Proof.
  intros F. unfold run, run_result. rewrite setup_pool_spec.
  destruct (pool_fails multiprocessing_available options); [reflexivity|].
  rewrite (select_iterator_spec _ F).
  unfold select_getter, getter_of.
  destruct (truth (bam options)); simpl;
    [|destruct (truth (plus_wig options)); simpl;
      [|destruct (truth (bedfile options)); simpl; [|reflexivity]]];
    match goal with
    | |- context [fdr ?a ?b ?c ?d ?p] => destruct (fdr a b c d p)
    end; reflexivity.
Qed.
End MainFacts.

(** The outcomes of [main], from the command line. *)
Lemma main_eq avail fdr log10 csv_field (argv : CommandLine) :
  main avail fdr log10 csv_field argv =
  match first_stop argv with
  | Some a => stop_result a
  | None => run_result avail fdr log10 csv_field (options_of argv)
  end.
Proof.
  destruct (first_stop argv) as [a|] eqn:S.
  - now apply main_stopped.
  - assert (E : E_Start argv = ([], inr (options_of argv)))
      by (rewrite E_Start_spec; now rewrite S).
    rewrite (main_parsed _ _ _ _ _ _ E). apply run_spec.
    apply (accepted_feature_default argv S).
Qed.

Lemma note_is_no_call avail options it g r s p :
  pool_note avail options <> call_fdr it g r s p.
Proof. unfold pool_note. destruct (proc options); [destruct avail|]; discriminate. Qed.

Lemma note_is_no_stdout avail options lines :
  pool_note avail options <> stdout lines.
Proof. unfold pool_note. destruct (proc options); [destruct avail|]; discriminate. Qed.

Lemma note_is_no_Stop avail options : pool_note avail options <> E_Stop.
Proof. unfold pool_note. destruct (proc options); [destruct avail|]; discriminate. Qed.

Lemma note_is_no_error avail options msg : pool_note avail options <> E_error msg.
Proof. unfold pool_note. destruct (proc options); [destruct avail|]; discriminate. Qed.

Lemma note_flags avail options :
  is_call (pool_note avail options) = false /\
  is_stdout (pool_note avail options) = false.
Proof. unfold pool_note. destruct (proc options); [destruct avail|]; auto. Qed.

Ltac run_cases :=
  unfold run_result, outcome, exit_status, log_of in *;
  repeat match goal with
  | |- context [if pool_fails ?a ?o then _ else _] =>
      let P := fresh "P" in destruct (pool_fails a o) eqn:P
  | H : context [if pool_fails ?a ?o then _ else _] |- _ =>
      let P := fresh "P" in destruct (pool_fails a o) eqn:P
  | |- context [match getter_of ?o with Some _ => _ | None => _ end] =>
      let G := fresh "G" in destruct (getter_of o) eqn:G
  | H : context [match getter_of ?o with Some _ => _ | None => _ end] |- _ =>
      let G := fresh "G" in destruct (getter_of o) eqn:G
  | |- context [match ?f ?a ?b ?c ?d ?e with inl _ => _ | inr _ => _ end] =>
      let R := fresh "R" in destruct (f a b c d e) eqn:R
  | H : context [match ?f ?a ?b ?c ?d ?e with inl _ => _ | inr _ => _ end] |- _ =>
      let R := fresh "R" in destruct (f a b c d e) eqn:R
  end; cbn [fst snd In] in *.

Lemma run_result_call avail fdr log10 csv_field options it g r s p :
  In (call_fdr it g r s p) (log_of (run_result avail fdr log10 csv_field options)) ->
  pool_fails avail options = false /\
  it = iterator_of options /\ getter_of options = Some g /\
  r = rands options /\ s = spread options /\ p = pool_of avail options.
Proof.
  intros H. run_cases;
    repeat (destruct H as [H|H]); try contradiction; try discriminate;
    try (now apply note_is_no_call in H);
    inversion H; subst; tauto.
Qed.

Lemma run_result_stdout avail fdr log10 csv_field options lines :
  In (stdout lines) (log_of (run_result avail fdr log10 csv_field options)) ->
  pool_fails avail options = false /\
  exists g results,
    getter_of options = Some g /\
    fdr (iterator_of options) g (rands options) (spread options)
        (pool_of avail options) = inr results /\
    lines = to_csv csv_field
              (map (bed_row log10) (significant (threshold options) results)).
Proof.
  intros H. run_cases;
    repeat (destruct H as [H|H]); try contradiction; try discriminate;
    try (now apply note_is_no_stdout in H);
    inversion H; subst; (split; [reflexivity|eauto 7]).
Qed.

Lemma run_result_error avail fdr log10 csv_field options msg :
  In (E_error msg) (log_of (run_result avail fdr log10 csv_field options)) ->
  pool_fails avail options = false /\ getter_of options = None /\
  msg = "Please specifiy one of bam file, bed file or wig file".
Proof.
  intros H. run_cases;
    repeat (destruct H as [H|H]); try contradiction; try discriminate;
    try (now apply note_is_no_error in H);
    inversion H; subst; tauto.
Qed.

Lemma run_result_Stop avail fdr log10 csv_field options :
  In E_Stop (log_of (run_result avail fdr log10 csv_field options)) ->
  outcome (run_result avail fdr log10 csv_field options) = inr tt.
Proof.
  intros H. run_cases;
    repeat (destruct H as [H|H]); try contradiction; try discriminate;
    try (now apply note_is_no_Stop in H); reflexivity.
Qed.

Lemma run_result_without_source avail fdr log10 csv_field options :
  getter_of options = None -> pool_fails avail options = false ->
  run_result avail fdr log10 csv_field options =
  ([pool_note avail options;
    E_error "Please specifiy one of bam file, bed file or wig file"],
   inl (SystemExit 1)).
Proof. intros G P. unfold run_result. now rewrite P, G. Qed.

Lemma run_result_pool_fails avail fdr log10 csv_field options :
  pool_fails avail options = true ->
  run_result avail fdr log10 csv_field options =
  ([], inl (Raise (ValueError "Number of processes must be at least 1"))).
Proof. intros P. unfold run_result. now rewrite P. Qed.

Lemma run_result_with_source avail fdr log10 csv_field options g :
  getter_of options = Some g -> pool_fails avail options = false ->
  In (call_fdr (iterator_of options) g (rands options) (spread options)
        (pool_of avail options))
     (log_of (run_result avail fdr log10 csv_field options)).
Proof.
  intros G P. unfold run_result, log_of. rewrite P, G.
  destruct (fdr _ _ _ _ _); simpl; auto.
Qed.

Lemma run_result_success avail fdr log10 csv_field options :
  outcome (run_result avail fdr log10 csv_field options) = inr tt <->
  exists lines, In (stdout lines) (log_of (run_result avail fdr log10 csv_field options)).
Proof.
  split.
  - intros H. run_cases; try discriminate. eexists. right. right. now left.
  - intros (lines & H). run_cases;
      repeat (destruct H as [H|H]); try contradiction; try discriminate;
      try (now apply note_is_no_stdout in H); reflexivity.
Qed.

Lemma run_result_status avail fdr log10 csv_field options :
  (exit_status (run_result avail fdr log10 csv_field options) = 0 /\
   outcome (run_result avail fdr log10 csv_field options) = inr tt) \/
  (exit_status (run_result avail fdr log10 csv_field options) = 1 /\
   outcome (run_result avail fdr log10 csv_field options) <> inr tt).
Proof.
  run_cases; auto; right; split; auto; discriminate.
Qed.

Lemma no_source options :
  truth (bam options) = false -> truth (plus_wig options) = false ->
  truth (bedfile options) = false -> getter_of options = None.
Proof. unfold getter_of. now intros -> -> ->. Qed.

Lemma some_source options :
  truth (bam options) || truth (plus_wig options) || truth (bedfile options) = true ->
  exists g, getter_of options = Some g.
Proof.
  unfold getter_of.
  destruct (truth (bam options)); [eauto|].
  destruct (truth (plus_wig options)); [eauto|].
  destruct (truth (bedfile options)); [eauto|discriminate].
Qed.

(** Every call of the FDR computation that [main] makes is the one of
    lines 161-162, on a command line the parser accepts. *)
Lemma the_call avail fdr log10 csv_field argv it g r s p :
  In (call_fdr it g r s p) (log_of (main avail fdr log10 csv_field argv)) ->
  accepted argv /\ pool_raises avail argv = false /\
  it = iterator_of (options_of argv) /\ getter_of (options_of argv) = Some g /\
  r = default 100 (arg_randomisations argv) /\
  s = default 15 (arg_spread argv) /\
  p = pool_of avail (options_of argv).
Proof.
  rewrite main_eq. unfold accepted.
  destruct (first_stop argv) as [a|] eqn:S.
  - intros H. apply stop_result_log in H; [|now apply first_stop_stops in S].
    destruct H as [H|[H|(n & v & H)]]; discriminate.
  - intros H. apply run_result_call in H. tauto.
Qed.

Lemma the_call_made avail fdr log10 csv_field argv :
  accepted argv -> pool_raises avail argv = false ->
  truth (arg_bam argv) || truth (arg_plus_wig argv) || truth (arg_bed argv) = true ->
  exists g,
    getter_of (options_of argv) = Some g /\
    In (call_fdr (iterator_of (options_of argv)) g
          (default 100 (arg_randomisations argv)) (default 15 (arg_spread argv))
          (pool_of avail (options_of argv)))
       (log_of (main avail fdr log10 csv_field argv)).
Proof.
  intros A P Hsrc. rewrite main_eq. unfold accepted in A. rewrite A.
  destruct (some_source (options_of argv) Hsrc) as (g & G).
  exists g. split; [exact G|].
  apply (run_result_with_source avail fdr log10 csv_field _ g G P).
Qed.

(** ** What is written

    The table of the claims C1 to C4 is the one [main] writes: when the
    FDR computation returns [results], the lines sent to standard
    output are the rows of [significant (threshold options) results],
    and the program ends normally. *)
Lemma main_writes avail fdr log10 csv_field argv lines :
  In (stdout lines) (log_of (main avail fdr log10 csv_field argv)) ->
  outcome (main avail fdr log10 csv_field argv) = inr tt /\
  exists g results,
    getter_of (options_of argv) = Some g /\
    fdr (iterator_of (options_of argv)) g (rands (options_of argv))
        (spread (options_of argv)) (pool_of avail (options_of argv)) = inr results /\
    lines = to_csv csv_field
              (map (bed_row log10)
                   (significant (threshold (options_of argv)) results)).
Proof.
  rewrite main_eq. destruct (first_stop argv) as [a|] eqn:S.
  - intros H. apply stop_result_log in H; [|now apply first_stop_stops in S].
    destruct H as [H|[H|(n & v & H)]]; discriminate.
  - intros H. split.
    + apply run_result_success. eauto.
    + apply run_result_stdout in H. tauto.
Qed.

(** What a run without a signal source comes to. *)
Lemma main_without_source avail fdr log10 csv_field argv :
  truth (arg_bam argv) = false ->
  truth (arg_plus_wig argv) = false ->
  truth (arg_bed argv) = false ->
  let m := main avail fdr log10 csv_field argv in
  (forall it g r s p, ~ In (call_fdr it g r s p) (log_of m)) /\
  (forall lines, ~ In (stdout lines) (log_of m)) /\
  outcome m <> inr tt /\
  (accepted argv -> pool_raises avail argv = false ->
   m = ([pool_note avail (options_of argv);
         E_error "Please specifiy one of bam file, bed file or wig file"],
        inl (SystemExit 1))) /\
  (accepted argv -> pool_raises avail argv = true ->
   m = ([], inl (Raise (ValueError "Number of processes must be at least 1")))) /\
  (exit_status m = 0 ->
   first_stop argv = Some opt_help \/ first_stop argv = Some opt_version).
Proof.
  intros B W D m.
  assert (G : getter_of (options_of argv) = None) by now apply no_source.
  split; [|split; [|split; [|split; [|split]]]].
  - intros it g r s p H. apply the_call in H.
    destruct H as (_ & _ & _ & G' & _). congruence.
  - intros lines H. apply main_writes in H.
    destruct H as (_ & g & res & G' & _). congruence.
  - subst m. rewrite main_eq. destruct (first_stop argv) as [a|] eqn:S.
    + destruct a; discriminate.
    + unfold run_result. rewrite G.
      destruct (pool_fails avail (options_of argv)); discriminate.
  - intros A P. subst m. rewrite main_eq. unfold accepted in A. rewrite A.
    now apply run_result_without_source.
  - intros A P. subst m. rewrite main_eq. unfold accepted in A. rewrite A.
    now apply run_result_pool_fails.
  - subst m. rewrite main_eq. destruct (first_stop argv) as [a|] eqn:S.
    + intros H. destruct (stop_result_status a (first_stop_stops _ _ S))
        as [[_ [-> | ->]]|[H2 _]]; auto. rewrite H2 in H. discriminate.
    + unfold run_result. rewrite G.
      destruct (pool_fails avail (options_of argv)); unfold exit_status; simpl;
        discriminate.
Qed.

(** ** Claims on the control flow *)

(** C5, as the claim states it, fails when the help is asked for: the
    program prints it and exits with status 0, whatever the rest of the
    command line. *)
Lemma no_source_with_help_exits_0 :
  ~ (forall avail fdr log10 csv_field argv,
       truth (arg_bam argv) = false ->
       truth (arg_plus_wig argv) = false ->
       truth (arg_bed argv) = false ->
       exit_status (main avail fdr log10 csv_field argv) <> 0).
Proof.
  intros H.
  apply (H true Samples.fdr (fun x => x) Samples.field Samples.help_only);
    reflexivity.
Qed.

(** C5, amended. When none of the BAM, plus-strand BigWig and BED
    options is given (or each is given empty), the FDR computation is
    not called, nothing is written and the program does not end
    normally. On a command line that the parser accepts, the error of
    line 158 is reported and the program exits with status 1, unless
    the creation of the pool has raised before (a process count below 1
    with multiprocessing importable). The exit status is 0 only when
    the parser stops at the help or the version. *)
Theorem no_signal_source_is_fatal
    (avail : bool) (fdr : iterator -> getter -> Z -> Z -> option Pool -> exn + DataFrame)
    (log10 : float64 -> float64) (csv_field : cell -> string)
    (argv : CommandLine) :
  truth (arg_bam argv) = false ->
  truth (arg_plus_wig argv) = false ->
  truth (arg_bed argv) = false ->
  let m := main avail fdr log10 csv_field argv in
  (forall it g r s p, ~ In (call_fdr it g r s p) (log_of m)) /\
  (forall lines, ~ In (stdout lines) (log_of m)) /\
  outcome m <> inr tt /\
  (accepted argv -> pool_raises avail argv = false ->
   outcome m = inl (SystemExit 1) /\ exit_status m = 1 /\
   In (E_error "Please specifiy one of bam file, bed file or wig file") (log_of m)) /\
  (accepted argv -> pool_raises avail argv = true ->
   outcome m =
     inl (Raise (ValueError "Number of processes must be at least 1")) /\
   forall msg, ~ In (E_error msg) (log_of m)) /\
  (exit_status m = 0 ->
   first_stop argv = Some opt_help \/ first_stop argv = Some opt_version).
Proof.
  intros B W D m.
  destruct (main_without_source avail fdr log10 csv_field argv B W D)
    as (H1 & H2 & H3 & H4 & H5 & H6).
  fold m in H1, H2, H3, H4, H5, H6.
  split; [exact H1|]. split; [exact H2|]. split; [exact H3|].
  split; [|split; [|exact H6]].
  - intros A P. rewrite (H4 A P). unfold outcome, exit_status, log_of; simpl.
    auto.
  - intros A P. rewrite (H5 A P). unfold outcome, log_of; simpl.
    split; [reflexivity|]. intros msg [].
Qed.

Lemma no_signal_source_is_fatal_witness :
  outcome (main true Samples.fdr (fun x => x) Samples.field Samples.no_option) =
    inl (SystemExit 1) /\
  exit_status (main true Samples.fdr (fun x => x) Samples.field Samples.no_option) = 1 /\
  In (E_error "Please specifiy one of bam file, bed file or wig file")
     (log_of (main true Samples.fdr (fun x => x) Samples.field Samples.no_option)).
Proof.
  apply (no_signal_source_is_fatal true Samples.fdr (fun x => x) Samples.field
           Samples.no_option eq_refl eq_refl eq_refl).
  - reflexivity.
  - reflexivity.
Defined.

(** C6, as the claim states it, fails when the help is asked for: with
    R = 0 on the command line the program still exits with status 0. *)
Lemma no_randomisation_with_help_exits_0 :
  ~ (forall avail engine log10 csv_field argv,
       arg_randomisations argv = Some 0 \/
       (exists s, arg_spread argv = Some s /\ s < 0) ->
       exit_status (main avail (ComputeFDR engine) log10 csv_field argv) <> 0).
Proof.
  intros H.
  apply (H true Samples.engine (fun x => x) Samples.field
           Samples.help_no_randomisation); [left|]; reflexivity.
Qed.

(** C6, amended, against the FDR computation as the spec describes it
    ([ComputeFDR]). With R = 0 or a negative spread no FDR value is
    computed (what the randomisation engine would return has no part in
    the run), nothing is written and the program does not end normally;
    its exit status is 0 only when the parser stops at the help or the
    version. [main] itself checks neither value: on an accepted command
    line with a signal source, when the creation of the pool does not
    raise, it calls the FDR computation with R and the spread as given,
    and the run ends with the configuration error raised there. *)
Theorem no_randomisation_or_negative_spread_is_fatal
    (avail : bool)
    (engine : iterator -> getter -> Z -> Z -> option Pool -> DataFrame)
    (log10 : float64 -> float64) (csv_field : cell -> string)
    (argv : CommandLine) :
  arg_randomisations argv = Some 0 \/
  (exists s, arg_spread argv = Some s /\ s < 0) ->
  let m := main avail (ComputeFDR engine) log10 csv_field argv in
  outcome m <> inr tt /\
  (forall lines, ~ In (stdout lines) (log_of m)) /\
  (forall engine', main avail (ComputeFDR engine') log10 csv_field argv = m) /\
  (exit_status m = 0 ->
   first_stop argv = Some opt_help \/ first_stop argv = Some opt_version) /\
  (accepted argv -> pool_raises avail argv = false ->
   truth (arg_bam argv) || truth (arg_plus_wig argv) || truth (arg_bed argv) = true ->
   outcome m = inl (Raise (ConfigurationError "R=0 or spread<0")) /\
   exit_status m = 1 /\
   exists it g p,
     In (call_fdr it g (default 100 (arg_randomisations argv))
           (default 15 (arg_spread argv)) p) (log_of m)).
Proof.
  intros Hcfg m.
  assert (Hbad : forall engine' it g p,
            ComputeFDR engine' it g (rands (options_of argv))
              (spread (options_of argv)) p =
            inl (ConfigurationError "R=0 or spread<0")).
  { intros engine' it g p. unfold ComputeFDR, options_of; simpl.
    destruct Hcfg as [->|(s & -> & Hs)]; simpl.
    - reflexivity.
    - apply Z.ltb_lt in Hs. rewrite Hs. now rewrite orb_true_r. }
  assert (R : forall engine',
            main avail (ComputeFDR engine') log10 csv_field argv =
            match first_stop argv with
            | Some a => stop_result a
            | None =>
                if pool_fails avail (options_of argv) then
                  ([], inl (Raise (ValueError "Number of processes must be at least 1")))
                else
                  match getter_of (options_of argv) with
                  | None =>
                      ([pool_note avail (options_of argv);
                        E_error "Please specifiy one of bam file, bed file or wig file"],
                       inl (SystemExit 1))
                  | Some g =>
                      ([pool_note avail (options_of argv);
                        call_fdr (iterator_of (options_of argv)) g
                          (rands (options_of argv)) (spread (options_of argv))
                          (pool_of avail (options_of argv))],
                       inl (Raise (ConfigurationError "R=0 or spread<0")))
                  end
            end).
  { intros engine'. rewrite main_eq. destruct (first_stop argv); [reflexivity|].
    unfold run_result. destruct (pool_fails avail (options_of argv)); [reflexivity|].
    destruct (getter_of (options_of argv)); [|reflexivity].
    now rewrite Hbad. }
  split; [|split; [|split; [|split]]].
  - subst m. rewrite R. destruct (first_stop argv) as [a|].
    + destruct a; discriminate.
    + destruct (pool_fails avail (options_of argv)); [discriminate|].
      destruct (getter_of (options_of argv)); discriminate.
  - intros lines H. apply main_writes in H.
    destruct H as (_ & g & res & _ & E & _). rewrite Hbad in E. discriminate.
  - intros engine'. subst m. now rewrite !R.
  - subst m. rewrite R. destruct (first_stop argv) as [a|] eqn:S.
    + intros H. destruct (stop_result_status a (first_stop_stops _ _ S))
        as [[_ [-> | ->]]|[H2 _]]; auto. rewrite H2 in H. discriminate.
    + destruct (pool_fails avail (options_of argv));
        [|destruct (getter_of (options_of argv))];
        unfold exit_status; simpl; discriminate.
  - intros A P Hsrc. subst m. rewrite R. unfold accepted in A. rewrite A.
    change (pool_fails avail (options_of argv)) with (pool_raises avail argv).
    rewrite P.
    destruct (some_source (options_of argv) Hsrc) as (g & ->).
    unfold outcome, exit_status, log_of; simpl.
    split; [reflexivity|]. split; [reflexivity|].
    do 3 eexists. right. left. reflexivity.
Qed.

Lemma no_randomisation_or_negative_spread_is_fatal_witness :
  outcome (main true (ComputeFDR Samples.engine) (fun x => x) Samples.field
             Samples.no_randomisation) =
    inl (Raise (ConfigurationError "R=0 or spread<0")) /\
  exit_status (main true (ComputeFDR Samples.engine) (fun x => x) Samples.field
                 Samples.no_randomisation) = 1 /\
  exists it g p,
    In (call_fdr it g (default 100 (arg_randomisations Samples.no_randomisation))
          (default 15 (arg_spread Samples.no_randomisation)) p)
       (log_of (main true (ComputeFDR Samples.engine) (fun x => x) Samples.field
                  Samples.no_randomisation)).
Proof.
  apply (no_randomisation_or_negative_spread_is_fatal true Samples.engine
           (fun x => x) Samples.field Samples.no_randomisation
           (or_introl eq_refl)).
  - reflexivity.
  - reflexivity.
  - reflexivity.
Defined.

(** C7. When no process count is given, and when multiprocessing cannot
    be imported, the FDR computation is called without a pool; a pool is
    passed only when a process count is given and the import succeeds,
    and then it is the pool of that many processes (the count is at
    least 1: with a smaller one the creation of the pool raises and
    there is no call). *)
Theorem pool_only_when_configured_and_importable
    (avail : bool) (fdr : iterator -> getter -> Z -> Z -> option Pool -> exn + DataFrame)
    (log10 : float64 -> float64) (csv_field : cell -> string)
    (argv : CommandLine) :
  let m := main avail fdr log10 csv_field argv in
  (arg_processes argv = None \/ avail = false ->
   forall it g r s p, In (call_fdr it g r s p) (log_of m) -> p = None) /\
  (forall it g r s pool, In (call_fdr it g r s (Some pool)) (log_of m) ->
   avail = true /\
   exists n, arg_processes argv = Some n /\ 1 <= n /\
             pool = multiprocessing_Pool n) /\
  (accepted argv ->
   truth (arg_bam argv) || truth (arg_plus_wig argv) || truth (arg_bed argv) = true ->
   (arg_processes argv = None \/ avail = false ->
    exists it g,
      In (call_fdr it g (default 100 (arg_randomisations argv))
            (default 15 (arg_spread argv)) None) (log_of m)) /\
   (forall n, arg_processes argv = Some n -> avail = true -> 1 <= n ->
    exists it g,
      In (call_fdr it g (default 100 (arg_randomisations argv))
            (default 15 (arg_spread argv)) (Some (multiprocessing_Pool n)))
         (log_of m))).
Proof.
  intros m. subst m. split; [|split].
  - intros Hno it g r s p H. apply the_call in H.
    destruct H as (_ & _ & _ & _ & _ & _ & ->).
    unfold pool_of, options_of; simpl.
    destruct Hno as [->| ->]; [reflexivity|].
    now destruct (arg_processes argv).
  - intros it g r s pool H. apply the_call in H.
    destruct H as (_ & P & _ & _ & _ & _ & H).
    unfold pool_of, options_of in H; simpl in H. unfold pool_raises in P.
    destruct (arg_processes argv) as [n|]; [|discriminate].
    destruct avail; [|discriminate]. simpl in *.
    destruct (Z.ltb_spec n 1); [discriminate|]. simpl in H.
    inversion H. split; [reflexivity|]. exists n. auto.
  - intros A Hsrc. split.
    + intros Hno.
      assert (P : pool_raises avail argv = false).
      { unfold pool_raises. destruct Hno as [->| ->]; [reflexivity|].
        now destruct (arg_processes argv). }
      destruct (the_call_made avail fdr log10 csv_field argv A P Hsrc)
        as (g & _ & H).
      assert (E : pool_of avail (options_of argv) = None).
      { unfold pool_of, options_of; simpl.
        destruct Hno as [->| ->]; [reflexivity|].
        now destruct (arg_processes argv). }
      rewrite E in H. eauto.
    + intros n Hn -> L.
      assert (B : Z.ltb n 1 = false) by (apply Z.ltb_ge; lia).
      assert (P : pool_raises true argv = false).
      { unfold pool_raises. now rewrite Hn, B. }
      destruct (the_call_made true fdr log10 csv_field argv A P Hsrc)
        as (g & _ & H).
      assert (E : pool_of true (options_of argv) = Some (multiprocessing_Pool n)).
      { unfold pool_of, options_of; simpl. now rewrite Hn, B. }
      rewrite E in H. eauto.
Qed.

Lemma pool_only_when_configured_and_importable_witness :
  (forall it g r s p,
     In (call_fdr it g r s p)
        (log_of (main false Samples.fdr (fun x => x) Samples.field
                   Samples.all_sources)) -> p = None) /\
  (exists it g,
     In (call_fdr it g 100 15 (Some (multiprocessing_Pool 4)))
        (log_of (main true Samples.fdr (fun x => x) Samples.field
                   Samples.all_sources))).
Proof.
  split.
  - apply (proj1 (pool_only_when_configured_and_importable false Samples.fdr
                    (fun x => x) Samples.field Samples.all_sources)).
    right. reflexivity.
  - apply (proj2 (proj2 (proj2 (pool_only_when_configured_and_importable true
                    Samples.fdr (fun x => x) Samples.field Samples.all_sources))
             eq_refl eq_refl) 4 eq_refl eq_refl).
    lia.
Defined.

(** C8. The signal sources have a fixed precedence. The getter handed
    to the FDR computation is made from the BAM file alone when one is
    given; otherwise from the plus-strand BigWig, with the minus-strand
    BigWig, when one is given; from the BED file only when neither is.
    "Given" is the test of the script: present and not empty. The call
    is made on every accepted command line with a source, when the
    creation of the pool does not raise. *)
Theorem signal_source_precedence
    (avail : bool) (fdr : iterator -> getter -> Z -> Z -> option Pool -> exn + DataFrame)
    (log10 : float64 -> float64) (csv_field : cell -> string)
    (argv : CommandLine) :
  let m := main avail fdr log10 csv_field argv in
  (forall it g r s p, In (call_fdr it g r s p) (log_of m) ->
   (truth (arg_bam argv) = true ->
    g = make_getter (arg_bam argv) None None None (arg_centre argv)) /\
   (truth (arg_bam argv) = false -> truth (arg_plus_wig argv) = true ->
    g = make_getter None (arg_plus_wig argv) (arg_minus_wig argv) None false) /\
   (truth (arg_bam argv) = false -> truth (arg_plus_wig argv) = false ->
    truth (arg_bed argv) = true /\
    g = make_getter None None None (arg_bed argv) false)) /\
  (accepted argv -> pool_raises avail argv = false ->
   truth (arg_bam argv) || truth (arg_plus_wig argv) || truth (arg_bed argv) = true ->
   exists it g r s p, In (call_fdr it g r s p) (log_of m)).
Proof.
  intros m. subst m. split.
  - intros it g r s p H. apply the_call in H.
    destruct H as (_ & _ & _ & G & _).
    unfold getter_of, options_of in G; simpl in G.
    destruct (truth (arg_bam argv)).
    { inversion G. repeat split; intros; congruence. }
    destruct (truth (arg_plus_wig argv)).
    { inversion G. repeat split; intros; congruence. }
    destruct (truth (arg_bed argv)); [|discriminate].
    inversion G. repeat split; intros; congruence.
  - intros A P Hsrc.
    destruct (the_call_made avail fdr log10 csv_field argv A P Hsrc)
      as (g & _ & H).
    eauto 6.
Qed.

Lemma signal_source_precedence_witness :
  (forall it g r s p,
     In (call_fdr it g r s p)
        (log_of (main true Samples.fdr (fun x => x) Samples.field
                   Samples.all_sources)) ->
     g = make_getter (Some "clip.bam") None None None true) /\
  (forall it g r s p,
     In (call_fdr it g r s p)
        (log_of (main true Samples.fdr (fun x => x) Samples.field
                   Samples.wig_and_bed)) ->
     g = make_getter None (Some "plus.bw") (Some "minus.bw") None false) /\
  (forall it g r s p,
     In (call_fdr it g r s p)
        (log_of (main true Samples.fdr (fun x => x) Samples.field
                   Samples.bed_only)) ->
     g = make_getter None None None (Some "clip.bed") false) /\
  (exists it g r s p,
     In (call_fdr it g r s p)
        (log_of (main true Samples.fdr (fun x => x) Samples.field
                   Samples.bed_only))).
Proof.
  split; [|split; [|split]]; try intros it g r s p H.
  - apply (proj1 (proj1 (signal_source_precedence true Samples.fdr (fun x => x)
                           Samples.field Samples.all_sources) it g r s p H)).
    reflexivity.
  - apply (proj1 (proj2 (proj1 (signal_source_precedence true Samples.fdr
                           (fun x => x) Samples.field Samples.wig_and_bed)
                           it g r s p H))).
    + reflexivity.
    + reflexivity.
  - apply (proj2 (proj2 (proj1 (signal_source_precedence true Samples.fdr
                           (fun x => x) Samples.field Samples.bed_only)
                           it g r s p H)) eq_refl eq_refl).
  - apply (proj2 (signal_source_precedence true Samples.fdr (fun x => x)
                    Samples.field Samples.bed_only)).
    + reflexivity.
    + reflexivity.
    + reflexivity.
Defined.

(** C9, as the claim states it, fails when the parser refuses the
    command line: with a minus-strand BigWig alone and a refused
    [--feature], the program exits with status 2 and the error of line
    158 is not reported. *)
Lemma minus_wig_alone_with_refused_feature :
  ~ (forall avail fdr log10 csv_field argv minus,
       arg_minus_wig argv = Some minus ->
       truth (arg_bam argv) = false ->
       truth (arg_plus_wig argv) = false ->
       truth (arg_bed argv) = false ->
       In (E_error "Please specifiy one of bam file, bed file or wig file")
          (log_of (main avail fdr log10 csv_field argv))).
Proof.
  intros H.
  specialize (H true Samples.fdr (fun x => x) Samples.field
                Samples.minus_wig_bad_feature "minus.bw"
                eq_refl eq_refl eq_refl eq_refl).
  vm_compute in H. destruct H as [H|[]]. discriminate.
Qed.

(** C9, amended. A minus-strand BigWig given alone (no BAM file, no
    plus-strand BigWig, no BED file) is never used as a signal source:
    no getter is made from it, the FDR computation is not called and
    nothing is written. On a command line that the parser accepts, and
    when the creation of the pool does not raise, the error of line 158
    is reported and the program exits with status 1; the exit status is
    0 only when the parser stops at the help or the version. *)
Theorem minus_wig_alone_is_no_source
    (avail : bool) (fdr : iterator -> getter -> Z -> Z -> option Pool -> exn + DataFrame)
    (log10 : float64 -> float64) (csv_field : cell -> string)
    (argv : CommandLine) (minus : string) :
  arg_minus_wig argv = Some minus ->
  truth (arg_bam argv) = false ->
  truth (arg_plus_wig argv) = false ->
  truth (arg_bed argv) = false ->
  let m := main avail fdr log10 csv_field argv in
  (forall it g r s p, ~ In (call_fdr it g r s p) (log_of m)) /\
  (forall lines, ~ In (stdout lines) (log_of m)) /\
  outcome m <> inr tt /\
  getter_of (options_of argv) = None /\
  (accepted argv -> pool_raises avail argv = false ->
   outcome m = inl (SystemExit 1) /\ exit_status m = 1 /\
   In (E_error "Please specifiy one of bam file, bed file or wig file") (log_of m) /\
   outcome (select_getter (options_of argv)) = inl (SystemExit 1)) /\
  (exit_status m = 0 ->
   first_stop argv = Some opt_help \/ first_stop argv = Some opt_version).
Proof.
  intros _ B W D m.
  destruct (main_without_source avail fdr log10 csv_field argv B W D)
    as (H1 & H2 & H3 & H4 & _ & H6).
  fold m in H1, H2, H3, H4, H6.
  split; [exact H1|]. split; [exact H2|]. split; [exact H3|].
  split; [now apply no_source|]. split; [|exact H6].
  intros A P. rewrite (H4 A P). unfold outcome, exit_status, log_of; simpl.
  split; [reflexivity|]. split; [reflexivity|]. split; [auto|].
  unfold select_getter, options_of; simpl. now rewrite B, W, D.
Qed.

Lemma minus_wig_alone_is_no_source_witness :
  outcome (main true Samples.fdr (fun x => x) Samples.field Samples.only_minus_wig) =
    inl (SystemExit 1) /\
  exit_status (main true Samples.fdr (fun x => x) Samples.field
                 Samples.only_minus_wig) = 1 /\
  In (E_error "Please specifiy one of bam file, bed file or wig file")
     (log_of (main true Samples.fdr (fun x => x) Samples.field
                Samples.only_minus_wig)) /\
  outcome (select_getter (options_of Samples.only_minus_wig)) = inl (SystemExit 1).
Proof.
  apply (minus_wig_alone_is_no_source true Samples.fdr (fun x => x) Samples.field
           Samples.only_minus_wig "minus.bw" eq_refl eq_refl eq_refl eq_refl).
  - reflexivity.
  - reflexivity.
Defined.

(** C10. The branch that raises [ValueError("Unknown feature type ...")]
    is never taken: the options that the parser returns have the
    feature "gene" or "transcript", so the choice of the iterator takes
    one of the first two branches. An exception that ends [main] is the
    one of the creation of the pool or one the FDR computation
    raised. *)
Theorem unknown_feature_unreachable (argv : CommandLine) (options : Options) :
  outcome (E_Start argv) = inr options ->
  (feature options = "gene" \/ feature options = "transcript") /\
  (select_iterator options = ret flat_gene_iterator \/
   select_iterator options = ret transcript_iterator) /\
  (forall msg, outcome (select_iterator options) <> inl (Raise (ValueError msg))) /\
  (forall avail fdr log10 csv_field e,
     outcome (main avail fdr log10 csv_field argv) = inl (Raise e) ->
     (e = ValueError "Number of processes must be at least 1" /\
      pool_fails avail options = true) \/
     exists it g r s p, fdr it g r s p = inl e).
Proof.
  intros E. rewrite E_Start_spec in E.
  destruct (first_stop argv) as [a|] eqn:S.
  { destruct a; discriminate. }
  simpl in E. inversion E; subst options. clear E.
  pose proof (accepted_feature_default argv S) as F.
  change (default "gene" (arg_feature argv)) with (feature (options_of argv)) in F.
  change (parsed argv (default "gene" (arg_feature argv))) with (options_of argv).
  split; [exact F|].
  assert (I : select_iterator (options_of argv) = ret flat_gene_iterator \/
              select_iterator (options_of argv) = ret transcript_iterator).
  { unfold select_iterator. destruct F as [-> | ->]; [left|right]; reflexivity. }
  split; [exact I|]. split.
  - intros msg. destruct I as [-> | ->]; discriminate.
  - intros avail fdr log10 csv_field e. rewrite main_eq, S.
    unfold run_result, outcome.
    destruct (pool_fails avail (options_of argv)); simpl.
    + intros H. inversion H. auto.
    + destruct (getter_of (options_of argv)) as [g|]; simpl; [|discriminate].
      destruct (fdr _ _ _ _ _) as [err|results] eqn:R; simpl; [|discriminate].
      intros H. inversion H; subst err. right. eauto 6.
Qed.

Lemma unknown_feature_unreachable_witness :
  select_iterator
    (mkOptions (Some "clip.bam") (Some "plus.bw") (Some "minus.bw")
       (Some "clip.bed") 15 100 default_threshold "transcript" (Some 4) true) =
    ret flat_gene_iterator \/
  select_iterator
    (mkOptions (Some "clip.bam") (Some "plus.bw") (Some "minus.bw")
       (Some "clip.bed") 15 100 default_threshold "transcript" (Some 4) true) =
    ret transcript_iterator.
Proof.
  apply (proj1 (proj2 (unknown_feature_unreachable Samples.all_sources
           (mkOptions (Some "clip.bam") (Some "plus.bw") (Some "minus.bw")
              (Some "clip.bed") 15 100 default_threshold "transcript" (Some 4) true)
           eq_refl))).
Defined.
(** * Part III: further properties of [main] *)

(** ** The table written *)

Lemma rows_determined_by_keys {A K : Type} (k : A -> K) (l' l : list A) :
  map k l' = map k l -> NoDup (map k l) ->
  (forall x, In x l' -> In x l) -> l' = l.
Proof.
  revert l. induction l' as [|a' l' IH]; intros [|a l] E ND Hin;
    try discriminate; [reflexivity|].
  simpl in E. inversion E as [[Ea El]].
  inversion ND as [|? ? Ha ND']; subst.
  assert (a' = a) as ->.
  { destruct (Hin a' (or_introl eq_refl)) as [->|H]; [reflexivity|].
    exfalso. apply Ha. rewrite <- Ea. now apply in_map. }
  f_equal. apply IH; [exact El|exact ND'|].
  intros x Hx. destruct (Hin x (or_intror Hx)) as [<-|H]; [|exact H].
  exfalso. apply Ha. rewrite <- El. now apply in_map.
Qed.

(** X1. The treatment of the table is idempotent: applied to the rows
    it has kept, with the same threshold, it keeps them all, in the same
    order. *)
Theorem significant_idempotent (t : float64) (df : DataFrame) :
  significant t (significant t df) = significant t df.
Proof.
  apply (rows_determined_by_keys key_of).
  - apply sorted_keys_unique; try apply significant_sorted.
    intros k. rewrite significant_keys. split.
    + intros (r & Hr & _ & <-). now apply in_map.
    + intros Hk. apply in_map_iff in Hk. destruct Hk as (r & <- & Hr).
      exists r. split; [exact Hr|]. split; [|reflexivity].
      now apply significant_In in Hr.
  - apply significant_NoDup.
  - intros x Hx. now apply significant_In in Hx.
Qed.

(** X2. Raising the threshold only adds positions: a position written
    with threshold [t1] is written with every threshold [t2 >= t1], with
    the same FDR and the same depth. *)
Theorem raising_the_threshold_keeps_positions
    (t1 t2 : float64) (df : DataFrame) (r1 : Result) :
  SFleb t1 t2 = true ->
  In r1 (significant t1 df) ->
  exists r2,
    In r2 (significant t2 df) /\ key_of r2 = key_of r1 /\
    SFeqb (FDR r2) (FDR r1) = true /\
    cell_eqb (Float (depth r2)) (Float (depth r1)) = true.
Proof.
  intros Ht H1.
  destruct (significant_In _ _ _ H1) as [Hdf1 Hle1].
  pose proof (SFleb_trans _ _ _ Hle1 Ht) as Hle12.
  destruct (significant_complete t2 df r1 Hdf1 Hle12) as (r2 & H2 & Ek).
  destruct (significant_In _ _ _ H2) as [Hdf2 Hle2].
  exists r2. split; [exact H2|]. split; [exact Ek|].
  assert (N1 : is_nan (FDR r1) = false) by now apply SFleb_not_nan in Hle1.
  assert (N2 : is_nan (FDR r2) = false) by now apply SFleb_not_nan in Hle2.
  pose proof (significant_least t2 df r2 r1 H2 Hdf1 Hle12 (eq_sym Ek)) as L2.
  apply first_sort_order in L2; [|assumption|assumption].
  destruct L2 as [F21 D21].
  pose proof (SFleb_trans _ _ _ F21 Hle1) as Hle21.
  pose proof (significant_least t1 df r1 r2 H1 Hdf2 Hle21 Ek) as L1.
  apply first_sort_order in L1; [|assumption|assumption].
  destruct L1 as [F12 D12].
  assert (E21 : SFeqb (FDR r2) (FDR r1) = true) by (apply SFeqb_leb; now split).
  assert (E12 : SFeqb (FDR r1) (FDR r2) = true) by (apply SFeqb_leb; now split).
  split; [exact E21|].
  destruct (D21 E12) as [_ D21']. destruct (D12 E21) as [_ D12'].
  simpl. destruct (is_nan (depth r1)) eqn:M1.
  - destruct (is_nan (depth r2)) eqn:M2; [now rewrite orb_true_r|].
    destruct (D12' eq_refl). congruence.
  - destruct (D21' eq_refl) as [M2 Le12].
    rewrite M2 in D12'. destruct (D12' eq_refl) as [_ Le21].
    assert (SFeqb (depth r2) (depth r1) = true) as -> by (apply SFeqb_leb; now split).
    reflexivity.
Qed.

Lemma raising_the_threshold_keeps_positions_witness :
  exists r2,
    In r2 (significant Samples.f0_5 Samples.mixed) /\
    key_of r2 = key_of Samples.deep /\
    SFeqb (FDR r2) (FDR Samples.deep) = true /\
    cell_eqb (Float (depth r2)) (Float (depth Samples.deep)) = true.
Proof.
  apply (raising_the_threshold_keeps_positions default_threshold Samples.f0_5
           Samples.mixed Samples.deep).
  - reflexivity.
  - simpl. left. reflexivity.
Defined.

(** X3. One line is written for each distinct key (contig, start,
    strand) among the records whose FDR is at most the threshold. *)
Theorem one_line_per_key
    (log10 : float64 -> float64) (csv_field : cell -> string)
    (t : float64) (df : DataFrame) :
  List.length (to_csv csv_field (map (bed_row log10) (significant t df))) =
  List.length (keys_under t df).
Proof.
  unfold to_csv. rewrite !length_map.
  rewrite <- (length_map key_of).
  apply Permutation_length, NoDup_Permutation.
  - apply significant_NoDup.
  - apply NoDup_nodup.
  - intros k. unfold keys_under. rewrite nodup_In, significant_keys, in_map_iff.
    unfold boolean_mask.
    split.
    + intros (r & Hr & Ht & E). exists r. split; [exact E|].
      apply filter_In. now split.
    + intros (r & E & Hr). apply filter_In in Hr. exists r. tauto.
Qed.

(** X4. A record whose FDR is missing (NaN) is never written, and with
    a NaN threshold nothing is written. *)
Theorem missing_values_are_never_written (t : float64) (df : DataFrame) :
  (forall r, is_nan (FDR r) = true -> ~ In r (significant t df)) /\
  (is_nan t = true -> significant t df = []).
Proof.
  split.
  - intros r N H. apply significant_In in H. destruct H as [_ H].
    apply SFleb_not_nan in H. destruct H. congruence.
  - intros N. unfold significant, boolean_mask.
    assert (filter (fun r => SFleb (FDR r) t) df = []) as ->; [|reflexivity].
    induction df as [|r df IH]; simpl; [reflexivity|].
    destruct (SFleb (FDR r) t) eqn:E; [|exact IH].
    apply SFleb_not_nan in E. destruct E. congruence.
Qed.

Lemma missing_values_are_never_written_witness :
  significant S754_nan Samples.mixed = [].
Proof.
  apply (proj2 (missing_values_are_never_written S754_nan Samples.mixed)).
  reflexivity.
Defined.

(** X5. The end column always holds an int64; for an int64 start it is
    start + 1 exactly when start is not the largest int64. *)
Theorem end_column_is_int64 (log10 : float64 -> float64) (r : Result) :
  - 2 ^ 63 <= row_end (bed_row log10 r) < 2 ^ 63 /\
  (- 2 ^ 63 <= start r < 2 ^ 63 ->
   (row_end (bed_row log10 r) = start r + 1 <-> start r < int64_max)).
Proof.
  unfold bed_row, astype_int, int64_max; simpl. unfold wrap64. split.
  - pose proof (Z.mod_pos_bound (start r + 1 + 2 ^ 63) (2 ^ 64)). lia.
  - intros R. split.
    + intros E. destruct (Z.eq_dec (start r) (2 ^ 63 - 1)) as [M|M]; [|lia].
      rewrite M in E. vm_compute in E. discriminate.
    + intros L. rewrite Z.mod_small; lia.
Qed.

Lemma end_column_is_int64_witness :
  row_end (bed_row (fun x => x) Samples.deep) = start Samples.deep + 1.
Proof.
  apply (proj2 (end_column_is_int64 (fun x => x) Samples.deep)).
  - simpl. lia.
  - unfold int64_max. simpl. lia.
Defined.


(** ** The run as a whole *)

(** *** Taking an option out of a command line, putting one in *)

Lemma last_value_app {A : Type} (pick : Arg -> option A) (l1 l2 : CommandLine) :
  last_value pick (l1 ++ l2) =
  match last_value pick l2 with
  | Some v => Some v
  | None => last_value pick l1
  end.
Proof.
  induction l1 as [|a l1 IH]; simpl.
  - now destruct (last_value pick l2).
  - rewrite IH. now destruct (last_value pick l2).
Qed.

Lemma last_value_filter_kept {A : Type} (pick : Arg -> option A)
    (keep : Arg -> bool) (argv : CommandLine) :
  (forall a, keep a = false -> pick a = None) ->
  last_value pick (filter keep argv) = last_value pick argv.
Proof.
  intros K. induction argv as [|a rest IH]; simpl; [reflexivity|].
  destruct (keep a) eqn:E; simpl; rewrite IH; [reflexivity|].
  rewrite (K a E). now destruct (last_value pick rest).
Qed.

Lemma last_value_filter_out {A : Type} (pick : Arg -> option A)
    (keep : Arg -> bool) (argv : CommandLine) :
  (forall a, keep a = true -> pick a = None) ->
  last_value pick (filter keep argv) = None.
Proof.
  intros K. induction argv as [|a rest IH]; simpl; [reflexivity|].
  destruct (keep a) eqn:E; simpl; [|exact IH].
  now rewrite IH, (K a E).
Qed.

Lemma first_stop_app (l1 l2 : CommandLine) :
  first_stop (l1 ++ l2) =
  match first_stop l1 with
  | Some a => Some a
  | None => first_stop l2
  end.
Proof.
  unfold first_stop. induction l1 as [|a l1 IH]; simpl; [reflexivity|].
  now destruct (stops a).
Qed.

Lemma first_stop_filter (keep : Arg -> bool) (argv : CommandLine) :
  (forall a, keep a = false -> stops a = false) ->
  first_stop (filter keep argv) = first_stop argv.
Proof.
  unfold first_stop. intros K. induction argv as [|a rest IH]; simpl; [reflexivity|].
  destruct (keep a) eqn:E; simpl.
  - now rewrite IH.
  - now rewrite (K a E).
Qed.

Lemma arg_centre_app (l1 l2 : CommandLine) :
  arg_centre (l1 ++ l2) = arg_centre l1 || arg_centre l2.
Proof. apply existsb_app. Qed.

Lemma arg_centre_filter_kept (keep : Arg -> bool) (argv : CommandLine) :
  (forall a, keep a = false -> is_centre a = false) ->
  arg_centre (filter keep argv) = arg_centre argv.
Proof.
  unfold arg_centre. intros K. induction argv as [|a rest IH]; simpl; [reflexivity|].
  destruct (keep a) eqn:E; simpl; rewrite IH; [reflexivity|].
  now rewrite (K a E).
Qed.

Lemma arg_centre_filter_out (argv : CommandLine) :
  arg_centre (filter (fun a => negb (is_centre a)) argv) = false.
Proof.
  unfold arg_centre. induction argv as [|a rest IH]; simpl; [reflexivity|].
  destruct (is_centre a) eqn:E; simpl; [exact IH|]. now rewrite E.
Qed.

(** An edit [filter keep argv ++ extra] that touches one option leaves
    the value of another one as it is. *)
Ltac side_condition :=
  let a := fresh "a" in
  intros a; destruct a; simpl; intros; first [reflexivity | discriminate].

Ltac case_extra :=
  try match goal with
  | |- context [if ?c then [_] else []] => destruct c
  | |- context [match ?v with Some _ => [_] | None => [] end] => destruct v
  end.

Ltac untouched :=
  first
  [ rewrite last_value_app, last_value_filter_kept by side_condition
  | rewrite arg_centre_app, arg_centre_filter_kept by side_condition ];
  case_extra; simpl; rewrite ?orb_false_r; reflexivity.

Ltac same_stop :=
  rewrite first_stop_app, first_stop_filter by side_condition;
  case_extra; simpl;
  match goal with
  | |- context [first_stop ?l] => now destruct (first_stop l)
  end.

Lemma with_centre_stop c argv : first_stop (with_centre c argv) = first_stop argv.
Proof. unfold with_centre. same_stop. Qed.

Lemma with_bam_stop v argv : first_stop (with_bam v argv) = first_stop argv.
Proof. unfold with_bam. same_stop. Qed.

Lemma with_plus_wig_stop v argv : first_stop (with_plus_wig v argv) = first_stop argv.
Proof. unfold with_plus_wig. same_stop. Qed.

Lemma with_bed_stop v argv : first_stop (with_bed v argv) = first_stop argv.
Proof. unfold with_bed. same_stop. Qed.

Lemma with_processes_stop v argv :
  first_stop (with_processes v argv) = first_stop argv.
Proof. unfold with_processes. same_stop. Qed.

Lemma with_centre_options c argv f :
  parsed (with_centre c argv) f =
  mkOptions (arg_bam argv) (arg_plus_wig argv) (arg_minus_wig argv) (arg_bed argv)
    (default 15 (arg_spread argv)) (default 100 (arg_randomisations argv))
    (default default_threshold (arg_threshold argv)) f (arg_processes argv) c.
Proof.
  unfold parsed, with_centre, arg_bam, arg_plus_wig, arg_minus_wig, arg_bed,
    arg_spread, arg_randomisations, arg_threshold, arg_processes.
  f_equal; try (f_equal; untouched); try untouched.
  rewrite arg_centre_app, arg_centre_filter_out. now destruct c.
Qed.

Lemma with_bam_options v argv f :
  parsed (with_bam v argv) f =
  mkOptions v (arg_plus_wig argv) (arg_minus_wig argv) (arg_bed argv)
    (default 15 (arg_spread argv)) (default 100 (arg_randomisations argv))
    (default default_threshold (arg_threshold argv)) f (arg_processes argv)
    (arg_centre argv).
Proof.
  unfold parsed, with_bam, arg_plus_wig, arg_minus_wig, arg_bed,
    arg_spread, arg_randomisations, arg_threshold, arg_processes.
  f_equal; try (f_equal; untouched); try untouched.
  unfold arg_bam. rewrite last_value_app, last_value_filter_out.
  - now destruct v.
  - side_condition.
Qed.

Lemma with_plus_wig_options v argv f :
  parsed (with_plus_wig v argv) f =
  mkOptions (arg_bam argv) v (arg_minus_wig argv) (arg_bed argv)
    (default 15 (arg_spread argv)) (default 100 (arg_randomisations argv))
    (default default_threshold (arg_threshold argv)) f (arg_processes argv)
    (arg_centre argv).
Proof.
  unfold parsed, with_plus_wig, arg_bam, arg_minus_wig, arg_bed,
    arg_spread, arg_randomisations, arg_threshold, arg_processes.
  f_equal; try (f_equal; untouched); try untouched.
  unfold arg_plus_wig. rewrite last_value_app, last_value_filter_out.
  - now destruct v.
  - side_condition.
Qed.

Lemma with_bed_options v argv f :
  parsed (with_bed v argv) f =
  mkOptions (arg_bam argv) (arg_plus_wig argv) (arg_minus_wig argv) v
    (default 15 (arg_spread argv)) (default 100 (arg_randomisations argv))
    (default default_threshold (arg_threshold argv)) f (arg_processes argv)
    (arg_centre argv).
Proof.
  unfold parsed, with_bed, arg_bam, arg_plus_wig, arg_minus_wig,
    arg_spread, arg_randomisations, arg_threshold, arg_processes.
  f_equal; try (f_equal; untouched); try untouched.
  unfold arg_bed. rewrite last_value_app, last_value_filter_out.
  - now destruct v.
  - side_condition.
Qed.

Lemma with_processes_options v argv f :
  parsed (with_processes v argv) f =
  mkOptions (arg_bam argv) (arg_plus_wig argv) (arg_minus_wig argv) (arg_bed argv)
    (default 15 (arg_spread argv)) (default 100 (arg_randomisations argv))
    (default default_threshold (arg_threshold argv)) f v (arg_centre argv).
Proof.
  unfold parsed, with_processes, arg_bam, arg_plus_wig, arg_minus_wig, arg_bed,
    arg_spread, arg_randomisations, arg_threshold.
  f_equal; try (f_equal; untouched); try untouched.
  unfold arg_processes. rewrite last_value_app, last_value_filter_out.
  - now destruct v.
  - side_condition.
Qed.

Lemma with_feature_untouched_bam v argv :
  arg_feature (with_bam v argv) = arg_feature argv.
Proof. unfold arg_feature, with_bam. untouched. Qed.

Lemma with_feature_untouched_plus_wig v argv :
  arg_feature (with_plus_wig v argv) = arg_feature argv.
Proof. unfold arg_feature, with_plus_wig. untouched. Qed.

Lemma with_feature_untouched_bed v argv :
  arg_feature (with_bed v argv) = arg_feature argv.
Proof. unfold arg_feature, with_bed. untouched. Qed.

Lemma with_feature_untouched_centre c argv :
  arg_feature (with_centre c argv) = arg_feature argv.
Proof. unfold arg_feature, with_centre. untouched. Qed.

Lemma with_feature_untouched_processes v argv :
  arg_feature (with_processes v argv) = arg_feature argv.
Proof. unfold arg_feature, with_processes. untouched. Qed.

(** Options that agree on what a run reads give the same run. *)
Lemma run_result_ext avail fdr log10 csv_field (o o' : Options) :
  getter_of o = getter_of o' -> feature o = feature o' ->
  rands o = rands o' -> spread o = spread o' ->
  threshold o = threshold o' -> proc o = proc o' ->
  run_result avail fdr log10 csv_field o = run_result avail fdr log10 csv_field o'.
Proof.
  intros G F R S T P.
  unfold run_result, iterator_of, pool_of, pool_note, pool_fails.
  now rewrite G, F, R, S, T, P.
Qed.

(** *** Properties *)

(** X6. A value of [--feature] other than "gene" and "transcript" that
    the parser reaches ends the program with status 2, the refusal
    reported, before the pool is set up or anything else is done. The
    exit status is 2 exactly when the parser stops at an option it
    refuses, and then the refusal is all the program reports. *)
Theorem refused_feature_exits_with_status_2
    (avail : bool) (fdr : iterator -> getter -> Z -> Z -> option Pool -> exn + DataFrame)
    (log10 : float64 -> float64) (csv_field : cell -> string)
    (argv : CommandLine) :
  let m := main avail fdr log10 csv_field argv in
  (forall before v rest,
     argv = before ++ opt_feature v :: rest -> accepted before ->
     v <> "gene" -> v <> "transcript" ->
     m = ([parser_error "--feature" v], inl (SystemExit 2))) /\
  (exit_status m = 2 <->
   exists a, first_stop argv = Some a /\ a <> opt_help /\ a <> opt_version) /\
  (exit_status m = 2 -> exists name value, log_of m = [parser_error name value]).
Proof.
  intros m. subst m. split; [|split].
  - intros before v rest -> A N1 N2. rewrite main_eq, first_stop_app.
    unfold accepted in A. rewrite A. unfold first_stop. simpl.
    apply String.eqb_neq in N1, N2. now rewrite N1, N2.
  - rewrite main_eq. destruct (first_stop argv) as [a|] eqn:S.
    + destruct (stop_result_status a (first_stop_stops _ _ S))
        as [[H [-> | ->]]|[H _]]; rewrite H.
      * split; [discriminate|]. intros (b & E & N & _). inversion E. congruence.
      * split; [discriminate|]. intros (b & E & _ & N). inversion E. congruence.
      * split; [|reflexivity]. intros _. exists a. split; [reflexivity|].
        split; intros ->; discriminate.
    + split; [|intros (a & E & _); discriminate].
      destruct (run_result_status avail fdr log10 csv_field (options_of argv))
        as [[H _]|[H _]]; rewrite H; discriminate.
  - rewrite main_eq. destruct (first_stop argv) as [a|] eqn:S.
    + destruct (stop_result_status a (first_stop_stops _ _ S))
        as [[H _]|[_ H]]; [rewrite H; discriminate|]. intros _. exact H.
    + destruct (run_result_status avail fdr log10 csv_field (options_of argv))
        as [[H _]|[H _]]; rewrite H; discriminate.
Qed.

Lemma refused_feature_exits_with_status_2_witness :
  main true Samples.fdr (fun x => x) Samples.field Samples.bad_feature =
  ([parser_error "--feature" "exon"], inl (SystemExit 2)).
Proof.
  apply (proj1 (refused_feature_exits_with_status_2 true Samples.fdr (fun x => x)
                  Samples.field Samples.bad_feature)
           [opt_bam "clip.bam"; opt_processes 4] "exon" [opt_help] eq_refl eq_refl).
  - discriminate.
  - discriminate.
Defined.

(** X7. The iterator follows the feature: the FDR computation gets the
    flat gene iterator when [--feature] is absent or "gene", and the
    transcript iterator when it is "transcript". *)
Theorem iterator_follows_feature
    (avail : bool) (fdr : iterator -> getter -> Z -> Z -> option Pool -> exn + DataFrame)
    (log10 : float64 -> float64) (csv_field : cell -> string)
    (argv : CommandLine) (it : iterator) (g : getter) (r s : Z) (p : option Pool) :
  In (call_fdr it g r s p) (log_of (main avail fdr log10 csv_field argv)) ->
  (it = flat_gene_iterator <->
   arg_feature argv = None \/ arg_feature argv = Some "gene") /\
  (it = transcript_iterator <-> arg_feature argv = Some "transcript").
Proof.
  intros H. apply the_call in H. destruct H as (A & _ & -> & _).
  destruct (accepted_feature argv A) as [E|[E|E]];
    unfold iterator_of, options_of; simpl; rewrite E; simpl;
    (split; split; intros; auto; try discriminate;
     repeat match goal with H : _ \/ _ |- _ => destruct H end;
     congruence).
Qed.

Lemma iterator_follows_feature_witness :
  (transcript_iterator = flat_gene_iterator <->
   arg_feature Samples.all_sources = None \/
   arg_feature Samples.all_sources = Some "gene") /\
  (transcript_iterator = transcript_iterator <->
   arg_feature Samples.all_sources = Some "transcript").
Proof.
  apply (iterator_follows_feature true Samples.fdr (fun x => x)
           Samples.field Samples.all_sources transcript_iterator
           (make_getter (Some "clip.bam") None None None true) 100 15
           (Some (multiprocessing_Pool 4))).
  vm_compute. right. left. reflexivity.
Defined.

(** X8. Output is written exactly when [main] returns normally, in
    which case [E.Stop] is reached; output is written at most once. The
    exit status is 0 exactly then, or when the parser stops at the help
    or the version. *)
Theorem output_iff_success
    (avail : bool) (fdr : iterator -> getter -> Z -> Z -> option Pool -> exn + DataFrame)
    (log10 : float64 -> float64) (csv_field : cell -> string)
    (argv : CommandLine) :
  let m := main avail fdr log10 csv_field argv in
  (outcome m = inr tt <-> exists lines, In (stdout lines) (log_of m)) /\
  (outcome m = inr tt <-> In E_Stop (log_of m)) /\
  (List.length (filter is_stdout (log_of m)) <= 1)%nat /\
  (exit_status m = 0 <->
   outcome m = inr tt \/
   first_stop argv = Some opt_help \/ first_stop argv = Some opt_version).
Proof.
  intros m. subst m. rewrite main_eq.
  destruct (first_stop argv) as [a|] eqn:S.
  - pose proof (first_stop_stops _ _ S) as St.
    destruct a; try discriminate; unfold outcome, exit_status, log_of; simpl;
      (split; [|split; [|split]];
       [split; [discriminate|intros (l & [H|[]]); discriminate]
       |split; [discriminate|intros [H|[]]; discriminate]
       |lia
       |split; [auto|intros [H|[H|H]]; first [reflexivity|discriminate]]]).
    + intros H. discriminate.
    + intros H. discriminate.
  - split; [apply run_result_success|]. split; [|split].
    + split; [|apply run_result_Stop].
      intros H. run_cases; try discriminate. right. right. right. now left.
    + destruct (note_flags avail (options_of argv)) as [_ N].
      unfold run_result, log_of.
      destruct (pool_fails avail (options_of argv)); [simpl; lia|].
      destruct (getter_of (options_of argv));
        [destruct (fdr _ _ _ _ _)|]; simpl; rewrite N; simpl; lia.
    + destruct (run_result_status avail fdr log10 csv_field (options_of argv))
        as [[H1 H2]|[H1 H2]]; rewrite H1.
      * split; auto.
      * split; [discriminate|]. intros [H|[H|H]]; [now apply H2 in H| |];
          discriminate.
Qed.

Lemma output_iff_success_witness :
  outcome (main true Samples.fdr (fun x => x) Samples.field Samples.all_sources) =
    inr tt /\
  exit_status (main true Samples.fdr (fun x => x) Samples.field Samples.help_only) = 0.
Proof.
  split.
  - apply (proj2 (proj1 (proj2 (output_iff_success true Samples.fdr (fun x => x)
                                  Samples.field Samples.all_sources)))).
    vm_compute. right. right. right. left. reflexivity.
  - apply (proj2 (proj2 (proj2 (proj2 (output_iff_success true Samples.fdr
                                  (fun x => x) Samples.field Samples.help_only))))).
    right. left. reflexivity.
Defined.

(** X9. The error of line 158 is reported exactly when the parser
    accepts the command line, the creation of the pool does not raise
    and none of the BAM, plus-strand BigWig and BED options holds a
    non-empty value. *)
Theorem missing_source_error_iff
    (avail : bool) (fdr : iterator -> getter -> Z -> Z -> option Pool -> exn + DataFrame)
    (log10 : float64 -> float64) (csv_field : cell -> string)
    (argv : CommandLine) :
  In (E_error "Please specifiy one of bam file, bed file or wig file")
     (log_of (main avail fdr log10 csv_field argv)) <->
  accepted argv /\ pool_raises avail argv = false /\
  truth (arg_bam argv) = false /\ truth (arg_plus_wig argv) = false /\
  truth (arg_bed argv) = false.
Proof.
  rewrite main_eq. unfold accepted.
  destruct (first_stop argv) as [a|] eqn:S.
  - split.
    + intros H. apply stop_result_log in H; [|now apply first_stop_stops in S].
      destruct H as [H|[H|(n & v & H)]]; discriminate.
    + intros (H & _). discriminate.
  - split.
    + intros H. apply run_result_error in H. destruct H as (P & G & _).
      split; [reflexivity|]. split; [exact P|].
      unfold getter_of, options_of in G; simpl in G.
      destruct (truth (arg_bam argv)); [discriminate|].
      destruct (truth (arg_plus_wig argv)); [discriminate|].
      destruct (truth (arg_bed argv)); [discriminate|auto].
    + intros (_ & P & B & W & D).
      rewrite run_result_without_source; [right; now left| |exact P].
      now apply no_source.
Qed.

Lemma missing_source_error_iff_witness :
  In (E_error "Please specifiy one of bam file, bed file or wig file")
     (log_of (main true Samples.fdr (fun x => x) Samples.field Samples.only_minus_wig)).
Proof.
  apply (proj2 (missing_source_error_iff true Samples.fdr (fun x => x)
                  Samples.field Samples.only_minus_wig)).
  unfold accepted. simpl. auto.
Defined.

(** X10. An exception raised by the FDR computation is not caught: it
    ends the program with status 1, nothing is written and [E.Stop] is
    not reached. *)
Theorem fdr_exception_propagates
    (avail : bool) (fdr : iterator -> getter -> Z -> Z -> option Pool -> exn + DataFrame)
    (log10 : float64 -> float64) (csv_field : cell -> string)
    (argv : CommandLine) (it : iterator) (g : getter) (r s : Z) (p : option Pool)
    (e : exn) :
  let m := main avail fdr log10 csv_field argv in
  In (call_fdr it g r s p) (log_of m) ->
  fdr it g r s p = inl e ->
  outcome m = inl (Raise e) /\ exit_status m = 1 /\
  (forall lines, ~ In (stdout lines) (log_of m)) /\
  ~ In E_Stop (log_of m).
Proof.
  intros m. subst m. rewrite main_eq.
  destruct (first_stop argv) as [a|] eqn:S.
  - intros H. apply stop_result_log in H; [|now apply first_stop_stops in S].
    destruct H as [H|[H|(n & v & H)]]; discriminate.
  - intros H E.
    pose proof (run_result_call _ _ _ _ _ _ _ _ _ _ H) as (P & -> & G & -> & -> & ->).
    pose proof (note_is_no_Stop avail (options_of argv)) as NS.
    pose proof (note_is_no_stdout avail (options_of argv)) as NO.
    unfold run_result, outcome, exit_status, log_of in *.
    rewrite P, G in *. rewrite E in *. simpl.
    repeat split; try reflexivity.
    + intros lines [K|[K|[]]]; [now apply NO in K|discriminate].
    + intros [K|[K|[]]]; [now apply NS in K|discriminate].
Qed.

Lemma fdr_exception_propagates_witness :
  outcome (main true (ComputeFDR Samples.engine) (fun x => x) Samples.field
             Samples.no_randomisation) =
  inl (Raise (ConfigurationError "R=0 or spread<0")).
Proof.
  apply (fdr_exception_propagates true (ComputeFDR Samples.engine) (fun x => x)
           Samples.field Samples.no_randomisation
           flat_gene_iterator (make_getter (Some "clip.bam") None None None false)
           0 15 None (ConfigurationError "R=0 or spread<0")).
  - vm_compute. right. left. reflexivity.
  - reflexivity.
Defined.

(** X11. The FDR computation is called at most once, with the number
    of randomisations and the spread of the command line, or 100 and
    15 when they are not given. *)
Theorem one_call_with_the_given_parameters
    (avail : bool) (fdr : iterator -> getter -> Z -> Z -> option Pool -> exn + DataFrame)
    (log10 : float64 -> float64) (csv_field : cell -> string)
    (argv : CommandLine) :
  let m := main avail fdr log10 csv_field argv in
  (List.length (filter is_call (log_of m)) <= 1)%nat /\
  forall it g r s p, In (call_fdr it g r s p) (log_of m) ->
    r = default 100 (arg_randomisations argv) /\
    s = default 15 (arg_spread argv).
Proof.
  intros m. subst m. split.
  - rewrite main_eq. destruct (first_stop argv) as [a|].
    + destruct a; simpl; lia.
    + destruct (note_flags avail (options_of argv)) as [N _].
      unfold run_result, log_of.
      destruct (pool_fails avail (options_of argv)); [simpl; lia|].
      destruct (getter_of (options_of argv));
        [destruct (fdr _ _ _ _ _)|]; simpl; rewrite N; simpl; lia.
  - intros it g r s p H. apply the_call in H. tauto.
Qed.

Lemma one_call_with_the_given_parameters_witness :
  100 = default 100 (arg_randomisations Samples.bed_only) /\
  15 = default 15 (arg_spread Samples.bed_only).
Proof.
  apply (proj2 (one_call_with_the_given_parameters true Samples.fdr (fun x => x)
                  Samples.field Samples.bed_only)
           flat_gene_iterator (make_getter None None None (Some "clip.bed") false)
           100 15 None).
  vm_compute. right. left. reflexivity.
Defined.

(** X12. [--centre] has an effect only when a BAM file is the signal
    source: without one, the run is the same with and without it. *)
Theorem centre_only_matters_with_bam
    (avail : bool) (fdr : iterator -> getter -> Z -> Z -> option Pool -> exn + DataFrame)
    (log10 : float64 -> float64) (csv_field : cell -> string)
    (argv : CommandLine) (c : bool) :
  truth (arg_bam argv) = false ->
  main avail fdr log10 csv_field (with_centre c argv) =
  main avail fdr log10 csv_field argv.
Proof.
  intros B. rewrite !main_eq, with_centre_stop.
  destruct (first_stop argv); [reflexivity|].
  unfold options_of. rewrite with_feature_untouched_centre, with_centre_options.
  apply run_result_ext; try reflexivity.
  unfold getter_of; simpl. now rewrite B.
Qed.

Lemma centre_only_matters_with_bam_witness :
  main true Samples.fdr (fun x => x) Samples.field
    (with_centre true Samples.wig_and_bed) =
  main true Samples.fdr (fun x => x) Samples.field Samples.wig_and_bed.
Proof.
  apply (centre_only_matters_with_bam true Samples.fdr (fun x => x) Samples.field
           Samples.wig_and_bed true).
  reflexivity.
Defined.

(** X13. A signal-source option given with the empty string counts as
    not given: the run is the same as without the option. *)
Theorem empty_string_is_absent
    (avail : bool) (fdr : iterator -> getter -> Z -> Z -> option Pool -> exn + DataFrame)
    (log10 : float64 -> float64) (csv_field : cell -> string)
    (argv : CommandLine) :
  main avail fdr log10 csv_field (with_bam (Some "") argv) =
    main avail fdr log10 csv_field (with_bam None argv) /\
  main avail fdr log10 csv_field (with_plus_wig (Some "") argv) =
    main avail fdr log10 csv_field (with_plus_wig None argv) /\
  main avail fdr log10 csv_field (with_bed (Some "") argv) =
    main avail fdr log10 csv_field (with_bed None argv).
Proof.
  rewrite !main_eq, !with_bam_stop, !with_plus_wig_stop, !with_bed_stop.
  destruct (first_stop argv); [auto|].
  unfold options_of.
  rewrite !with_feature_untouched_bam, !with_feature_untouched_plus_wig,
    !with_feature_untouched_bed, !with_bam_options, !with_plus_wig_options,
    !with_bed_options.
  split; [|split]; apply run_result_ext; reflexivity.
Qed.

(** X14. The worker pool bears on the result only through the FDR
    computation: when that computation returns the same with and
    without a pool, the outcome and the lines written are the same
    with and without a process count, whether multiprocessing can be
    imported or not, as long as the creation of the pool does not raise
    (no process count below 1 with multiprocessing importable). *)
Theorem pool_matters_only_through_fdr
    (fdr : iterator -> getter -> Z -> Z -> option Pool -> exn + DataFrame)
    (log10 : float64 -> float64) (csv_field : cell -> string)
    (argv : CommandLine) (avail avail' : bool) (n : option Z) :
  (forall it g r s p, fdr it g r s p = fdr it g r s None) ->
  pool_raises avail argv = false ->
  pool_raises avail' (with_processes n argv) = false ->
  let m := main avail fdr log10 csv_field argv in
  let m' := main avail' fdr log10 csv_field (with_processes n argv) in
  outcome m = outcome m' /\
  filter is_stdout (log_of m) = filter is_stdout (log_of m').
Proof.
  intros Hf P P' m m'. subst m m'. rewrite !main_eq, with_processes_stop.
  destruct (first_stop argv); [auto|].
  change (pool_raises avail argv) with (pool_fails avail (options_of argv)) in P.
  change (pool_raises avail' (with_processes n argv))
    with (pool_fails avail' (options_of (with_processes n argv))) in P'.
  destruct (note_flags avail (options_of argv)) as [_ N1].
  destruct (note_flags avail' (options_of (with_processes n argv))) as [_ N2].
  unfold run_result, outcome, log_of. rewrite P, P'.
  assert (G : getter_of (options_of (with_processes n argv)) =
              getter_of (options_of argv)).
  { unfold options_of.
    now rewrite with_feature_untouched_processes, with_processes_options. }
  assert (I : iterator_of (options_of (with_processes n argv)) =
              iterator_of (options_of argv)).
  { unfold options_of.
    now rewrite with_feature_untouched_processes, with_processes_options. }
  assert (R : rands (options_of (with_processes n argv)) = rands (options_of argv)).
  { unfold options_of.
    now rewrite with_feature_untouched_processes, with_processes_options. }
  assert (S : spread (options_of (with_processes n argv)) = spread (options_of argv)).
  { unfold options_of.
    now rewrite with_feature_untouched_processes, with_processes_options. }
  assert (T : threshold (options_of (with_processes n argv)) =
              threshold (options_of argv)).
  { unfold options_of.
    now rewrite with_feature_untouched_processes, with_processes_options. }
  rewrite G, I, R, S, T.
  destruct (getter_of (options_of argv)) as [g|]; simpl.
  - rewrite (Hf _ _ _ _ (pool_of avail _)), (Hf _ _ _ _ (pool_of avail' _)).
    destruct (fdr _ _ _ _ None); simpl; rewrite N1, N2; auto.
  - rewrite N1, N2. auto.
Qed.

Lemma pool_matters_only_through_fdr_witness :
  outcome (main true Samples.fdr (fun x => x) Samples.field Samples.bed_only) =
    outcome (main false Samples.fdr (fun x => x) Samples.field
               (with_processes (Some 8) Samples.bed_only)) /\
  filter is_stdout
    (log_of (main true Samples.fdr (fun x => x) Samples.field Samples.bed_only)) =
  filter is_stdout
    (log_of (main false Samples.fdr (fun x => x) Samples.field
               (with_processes (Some 8) Samples.bed_only))).
Proof.
  apply (pool_matters_only_through_fdr Samples.fdr (fun x => x) Samples.field
           Samples.bed_only true false (Some 8)).
  - intros it g r s p. reflexivity.
  - reflexivity.
  - reflexivity.
Defined.

(** X15. When multiprocessing cannot be imported the run falls back to
    the sequential one: apart from its first message it is the run of
    the same command line without [--processes]. The warning of line
    137 is logged exactly when a process count is given on an accepted
    command line and the import fails. *)
Theorem import_failure_falls_back
    (fdr : iterator -> getter -> Z -> Z -> option Pool -> exn + DataFrame)
    (log10 : float64 -> float64) (csv_field : cell -> string)
    (argv : CommandLine) (avail avail' : bool) :
  (let m := main false fdr log10 csv_field argv in
   let m' := main avail' fdr log10 csv_field (with_processes None argv) in
   outcome m = outcome m' /\ tl (log_of m) = tl (log_of m')) /\
  (In (E_warn "Failed to setup multiprocessing, using single processor")
      (log_of (main avail fdr log10 csv_field argv)) <->
   avail = false /\ accepted argv /\ exists n, arg_processes argv = Some n).
Proof.
  split.
  - cbv zeta. rewrite !main_eq, with_processes_stop.
    destruct (first_stop argv); [auto|].
    unfold options_of.
    rewrite with_feature_untouched_processes, with_processes_options.
    unfold run_result, pool_fails, pool_of, pool_note, iterator_of, getter_of,
      outcome, log_of; simpl.
    destruct (arg_processes argv); simpl;
      repeat match goal with
      | |- context [if truth ?x then _ else _] => destruct (truth x); simpl
      end;
      try match goal with
      | |- context [match ?f ?a ?b ?c ?d ?e with inl _ => _ | inr _ => _ end] =>
          destruct (f a b c d e)
      end; auto.
  - rewrite main_eq. unfold accepted.
    destruct (first_stop argv) as [a|] eqn:S.
    + split.
      * intros H. apply stop_result_log in H; [|now apply first_stop_stops in S].
        destruct H as [H|[H|(n & v & H)]]; discriminate.
      * intros (_ & H & _). discriminate.
    + unfold run_result, pool_fails, pool_note, log_of, options_of; simpl.
      destruct (arg_processes argv) as [n|]; destruct avail; simpl;
        try destruct (Z.ltb n 1); simpl;
        try destruct (getter_of _); try destruct (fdr _ _ _ _ _); simpl;
        (split;
         [intros H; repeat (destruct H as [H|H]); try contradiction;
          try discriminate; eauto
         |intros (H1 & H0 & n' & H2); try discriminate; auto]).
Qed.

Lemma import_failure_falls_back_witness :
  In (E_warn "Failed to setup multiprocessing, using single processor")
     (log_of (main false Samples.fdr (fun x => x) Samples.field Samples.all_sources)).
Proof.
  apply (proj2 (proj2 (import_failure_falls_back Samples.fdr (fun x => x)
                         Samples.field Samples.all_sources false false))).
  split; [reflexivity|].
  split; [reflexivity|exists 4; reflexivity].
Defined.
